(** * Bihar risk atlas: the Earth Engine extraction script

    A shallow embedding of [gee_scripts/extraction_script.js].  The script is
    a sequence of declarative Earth Engine calls (filter, map, reduce,
    export).  The platform objects it manipulates are modelled here as plain
    data: dates are UTC milliseconds, numbers are exact rationals, an image
    is a list of named bands whose pixels are sampled per region and scale,
    a feature is a table row.  The hosted assets and the image catalogue are
    the input of the script; its tables and exports are functions of them. *)

From Stdlib Require Import ZArith List String Ascii Bool Lia QArith Qcanon FinFun.
Import ListNotations.
Local Open Scope Z_scope.

(** ** Dates: [ee.Date] *)

Module Date.

(** A date is its number of milliseconds since 1970-01-01T00:00Z, which is
    also the unit of the [system:time_start] property. *)
Definition t := Z.

Definition ms_per_day : Z := 86400000.

(** Day number (days since the epoch) of a proleptic Gregorian date. *)
Definition days_from_civil (y m d : Z) : Z :=
  let y' := if m <=? 2 then y - 1 else y in
  let era := y' / 400 in
  let yoe := y' - era * 400 in
  let mp := if m <=? 2 then m + 9 else m - 3 in
  let doy := (153 * mp + 2) / 5 + d - 1 in
  let doe := yoe * 365 + yoe / 4 - yoe / 100 + doy in
  era * 146097 + doe - 719468.

(** The inverse: year, month (1..12) and day of month of a day number. *)
Definition civil_from_days (n : Z) : Z * Z * Z :=
  let z := n + 719468 in
  let era := z / 146097 in
  let doe := z - era * 146097 in
  let yoe := (doe - doe / 1460 + doe / 36524 - doe / 146096) / 365 in
  let doy := doe - (365 * yoe + yoe / 4 - yoe / 100) in
  let mp := (5 * doy + 2) / 153 in
  let d := doy - (153 * mp + 2) / 5 + 1 in
  let m := if mp <? 10 then mp + 3 else mp - 9 in
  let y := yoe + era * 400 in
  (if m <=? 2 then y + 1 else y, m, d).

Definition day_number (x : t) : Z := x / ms_per_day.
Definition time_of_day (x : t) : Z := x mod ms_per_day.

(** [ee.Date.fromYMD(y, m, d)] *)
Definition fromYMD (y m d : Z) : t := days_from_civil y m d * ms_per_day.

(** [date.get('year')], [date.get('month')], [date.get('day')] *)
Definition get_year (x : t) : Z := fst (fst (civil_from_days (day_number x))).
Definition get_month (x : t) : Z := snd (fst (civil_from_days (day_number x))).
Definition get_day (x : t) : Z := snd (civil_from_days (day_number x)).

Definition is_leap (y : Z) : bool :=
  ((y mod 4 =? 0) && negb (y mod 100 =? 0)) || (y mod 400 =? 0).

Definition days_in_month (y m : Z) : Z :=
  if m =? 2 then (if is_leap y then 29 else 28)
  else if (m =? 4) || (m =? 6) || (m =? 9) || (m =? 11) then 30
  else 31.

(** [date.advance(k, 'month')]: the same day of month [k] months later,
    clamped to the length of the target month, at the same time of day. *)
Definition advance_month (k : Z) (x : t) : t :=
  let '(y, m, d) := civil_from_days (day_number x) in
  let idx := y * 12 + (m - 1) + k in
  let y' := idx / 12 in
  let m' := idx mod 12 + 1 in
  fromYMD y' m' (Z.min d (days_in_month y' m')) + time_of_day x.

(** [date.millis()] *)
Definition millis (x : t) : Z := x.

(** Parsing of the ['YYYY-MM-DD'] strings the script passes to
    [filterDate]. *)
Definition digit (c : ascii) : option Z :=
  let n := Z.of_nat (nat_of_ascii c) in
  if (48 <=? n) && (n <=? 57) then Some (n - 48) else None.

Fixpoint number (acc : Z) (s : list ascii) : option Z :=
  match s with
  | [] => Some acc
  | c :: s' =>
      match digit c with
      | Some k => number (10 * acc + k) s'
      | None => None
      end
  end.

Definition parse (s : string) : option t :=
  match list_ascii_of_string s with
  | [y1; y2; y3; y4; d1; m1; m2; d2; a1; a2] =>
      if (Ascii.eqb d1 "-") && (Ascii.eqb d2 "-") then
        match number 0 [y1; y2; y3; y4], number 0 [m1; m2], number 0 [a1; a2] with
        | Some y, Some m, Some d => Some (fromYMD y m d)
        | _, _, _ => None
        end
      else None
  | _ => None
  end.

End Date.

(** ** Earth Engine objects *)

(** Numbers are exact rationals, where the platform computes in floating
    point: the properties below are about which pixels, scales, factors and
    dates enter a value, and about bounds that rounding keeps; none of them
    equates two differently ordered computations. *)
Definition num (z : Z) : Qc := Q2Qc (inject_Z z).
Definition ratio (a : Z) (b : positive) : Qc := Q2Qc (a # b).

Definition Qc_ltb (x y : Qc) : bool := negb (Qle_bool y x).

(** A pixel is masked ([None]) or carries a value. *)
Definition Pixel := option Qc.

(** A region of the map.  A raster answers, for a nominal scale in metres
    and a region, with the pixels of that region at that scale; Earth Engine
    evaluates every per-pixel computation at the scale the final reduction
    asks for, so per-pixel operations act on these samples. *)
Definition Geometry := Z.
Definition Raster := Z -> Geometry -> list Pixel.

Module Block.
(** A feature of the boundary asset: an administrative block. *)
Record t := make {
  geometry : Geometry;
  block_id : Z
}.
End Block.

Module Feature.
(** A row of an exported table: the block, and the properties that
    [reduceRegions] and [set] attach to it ([None]: not set, an empty
    cell of the CSV file).  Earth Engine objects are deferred computations:
    [failed] marks a row whose computation fails when it is evaluated. *)
Record t := make {
  geometry : Geometry;
  block_id : Z;
  mean : option Qc;
  year : option Z;
  month : option Z;
  failed : bool
}.

Definition of_block (b : Block.t) : t :=
  make (Block.geometry b) (Block.block_id b) None None None false.

Definition set_mean (v : option Qc) (f : t) : t :=
  make (geometry f) (block_id f) v (year f) (month f) (failed f).

(** [f.set({'year': y, 'month': m})] *)
Definition set_year_month (y m : option Z) (f : t) : t :=
  make (geometry f) (block_id f) (mean f) y m (failed f).

(** A row computed from something that fails, fails. *)
Definition poison (e : bool) (f : t) : t :=
  make (geometry f) (block_id f) (mean f) (year f) (month f) (failed f || e).
End Feature.

Module Image.
(** An image: its bands and the properties the script reads or sets.  An
    image is a deferred computation too: [failed] marks one whose evaluation
    fails (a band that does not exist, a renaming with the wrong number of
    names), and it is passed on to whatever is computed from it. *)
Record t := make {
  bands : list (string * Raster);
  system_time_start : option Date.t;
  CLOUDY_PIXEL_PERCENTAGE : option Qc;
  year : option Z;
  month : option Z;
  footprint : Geometry -> bool;
  failed : bool
}.

Definition band (name : string) (img : t) : option Raster :=
  option_map snd (find (fun b => String.eqb (fst b) name) (bands img)).

(** Numeric properties by name, as [ee.Filter] reads them. *)
Definition get (name : string) (img : t) : option Qc :=
  if String.eqb name "CLOUDY_PIXEL_PERCENTAGE" then CLOUDY_PIXEL_PERCENTAGE img
  else if String.eqb name "system:time_start" then option_map num (system_time_start img)
  else if String.eqb name "year" then option_map num (year img)
  else if String.eqb name "month" then option_map num (month img)
  else None.

(** A computed image starts without properties. *)
Definition computed (bs : list (string * Raster)) (fp : Geometry -> bool)
           (e : bool) : t :=
  make bs None None None None fp e.

Definition with_bands (bs : list (string * Raster)) (img : t) : t :=
  make bs (system_time_start img) (CLOUDY_PIXEL_PERCENTAGE img)
       (year img) (month img) (footprint img) (failed img).

(** The image, as a computation that fails: it has no band to read. *)
Definition fail (img : t) : t :=
  make [] (system_time_start img) (CLOUDY_PIXEL_PERCENTAGE img)
       (year img) (month img) (footprint img) true.

(** [img.select(name)]: fails when no band has that name. *)
Definition select (name : string) (img : t) : t :=
  match filter (fun b => String.eqb (fst b) name) (bands img) with
  | [] => fail img
  | bs => with_bands bs img
  end.

(** [img.rename(name)]: one name for the one band; Earth Engine requires as
    many names as bands, so the renaming of an image without band, or with
    several, fails. *)
Definition rename (name : string) (img : t) : t :=
  match bands img with
  | [(_, r)] => with_bands [(name, r)] img
  | _ => fail img
  end.

(** [img.multiply(c)]: every unmasked pixel of every band times [c]. *)
Definition multiply (c : Qc) (img : t) : t :=
  computed
    (map (fun b => (fst b, fun s g => map (option_map (Qcmult c)) (snd b s g)))
         (bands img))
    (footprint img) (failed img).

(** [(a - b) / (a + b)]; masked where an input is masked or negative, or
    where the sum is zero. *)
Definition nd_pixel (a b : Pixel) : Pixel :=
  match a, b with
  | Some x, Some y =>
      if Qc_ltb x 0 || Qc_ltb y 0 || Qc_eq_bool (x + y) 0 then None
      else Some ((x - y) / (x + y))%Qc
  | _, _ => None
  end.

Fixpoint map2 {A B C} (f : A -> B -> C) (l : list A) (l' : list B) : list C :=
  match l, l' with
  | a :: l, b :: l' => f a b :: map2 f l l'
  | _, _ => []
  end.

(** [img.normalizedDifference([a, b])]: a single band named [nd]; fails
    when one of the two bands does not exist. *)
Definition normalizedDifference (names : list string) (img : t) : t :=
  match names with
  | [a; b] =>
      match band a img, band b img with
      | Some ra, Some rb =>
          computed [("nd"%string, fun s g => map2 nd_pixel (ra s g) (rb s g))]
                   (footprint img) (failed img)
      | _, _ => computed [] (footprint img) true
      end
  | _ => computed [] (footprint img) true
  end.

(** [dest.copyProperties(src, names)] *)
Definition copyProperties (dest src : t) (names : list string) : t :=
  let has n := existsb (String.eqb n) names in
  make (bands dest)
       (if has "system:time_start"%string then system_time_start src
        else system_time_start dest)
       (if has "CLOUDY_PIXEL_PERCENTAGE"%string then CLOUDY_PIXEL_PERCENTAGE src
        else CLOUDY_PIXEL_PERCENTAGE dest)
       (if has "year"%string then year src else year dest)
       (if has "month"%string then month src else month dest)
       (footprint dest)
       (failed dest || failed src).

(** [img.set({'year': y, 'month': m, 'system:time_start': ms})] *)
Definition set_year_month_time (y m : Z) (ms : Z) (img : t) : t :=
  make (bands img) (Some ms) (CLOUDY_PIXEL_PERCENTAGE img) (Some y) (Some m)
       (footprint img) (failed img).
End Image.

Definition Blocks := list Block.t.
Definition FeatureCollection := list Feature.t.
Definition ImageCollection := list Image.t.

(** The hosted assets and catalogue the script reads, by identifier. *)
Record World := {
  featureCollection : string -> Blocks;
  imageCollection : string -> ImageCollection
}.

Module ee.

(** [ee.List.sequence(a, b)] *)
Definition List_sequence (a b : Z) : list Z :=
  map (fun k => a + Z.of_nat k) (seq 0 (Z.to_nat (b - a + 1))).

(** [list.flatten()], [collection.flatten()] *)
Definition flatten {A} (l : list (list A)) : list A := List.concat l.

(** [col.filterBounds(fc)]: the images that meet some feature of [fc]. *)
Definition filterBounds (fc : Blocks) (col : ImageCollection) : ImageCollection :=
  filter (fun img => existsb (fun b => Image.footprint img (Block.geometry b)) fc) col.

(** [col.filterDate(start, end)]: start inclusive, end exclusive, on
    [system:time_start]. *)
Definition in_range (a b : Date.t) (img : Image.t) : bool :=
  match Image.system_time_start img with
  | Some x => (a <=? x) && (x <? b)
  | None => false
  end.

Definition filterDate (a b : Date.t) (col : ImageCollection) : ImageCollection :=
  filter (in_range a b) col.

(** The same with the two dates given as strings. *)
Definition filterDate_str (a b : string) (col : ImageCollection) : ImageCollection :=
  match Date.parse a, Date.parse b with
  | Some a', Some b' => filterDate a' b' col
  | _, _ => []
  end.

(** [ee.Filter.lt(name, v)]: the property exists and is less than [v]. *)
Definition Filter_lt (name : string) (v : Qc) (img : Image.t) : bool :=
  match Image.get name img with
  | Some x => Qc_ltb x v
  | None => false
  end.

(** Reducers take the unmasked inputs. *)
Definition Reducer := list Qc -> option Qc.

Definition total (l : list Qc) : Qc := fold_right Qcplus 0%Qc l.

(** [ee.Reducer.mean()]: the mean of the inputs, each counting the same;
    no output without input. *)
Definition Reducer_mean : Reducer := fun l =>
  match l with
  | [] => None
  | _ => Some (total l / num (Z.of_nat (List.length l)))%Qc
  end.

Fixpoint valid (l : list Pixel) : list Qc :=
  match l with
  | [] => []
  | Some v :: l' => v :: valid l'
  | None :: l' => valid l'
  end.

(** The reducer's output over one region: the image must have its one
    band, and the region an unmasked pixel at that scale. *)
Definition reduce_region (reducer : Reducer) (scale : Z) (img : Image.t)
           (g : Geometry) : option Qc :=
  match Image.bands img with
  | [(_, r)] => reducer (valid (r scale g))
  | _ => None
  end.

(** [img.reduceRegions({collection, reducer, scale})]: every feature of
    the collection comes back, with the reducer's output over its region
    as property [mean]; the rows of an image that fails, fail. *)
Definition reduceRegions (collection : Blocks) (reducer : Reducer)
           (scale : Z) (img : Image.t) : FeatureCollection :=
  map (fun b =>
         Feature.poison (Image.failed img)
           (Feature.set_mean (reduce_region reducer scale img (Block.geometry b))
                             (Feature.of_block b)))
      collection.

(** Per-pixel sum of two samples; a masked pixel contributes nothing. *)
Definition padd (a b : Pixel) : Pixel :=
  match a, b with
  | Some x, Some y => Some (x + y)%Qc
  | Some x, None => Some x
  | None, _ => b
  end.

(** [col.sum()]: per band of the first image, the per-pixel sum over the
    collection; an empty collection gives an image without bands (which is
    no failure yet). *)
Definition sum (col : ImageCollection) : Image.t :=
  match col with
  | [] => Image.computed [] (fun _ => false) false
  | img :: rest =>
      Image.computed
        (map (fun b =>
                (fst b,
                 fun s g =>
                   fold_left
                     (fun acc img' =>
                        match Image.band (fst b) img' with
                        | Some r' => Image.map2 padd acc (r' s g)
                        | None => acc
                        end)
                     rest (snd b s g)))
             (Image.bands img))
        (fun g => existsb (fun i => Image.footprint i g) col)
        (existsb Image.failed col)
  end.

(** [ee.Date(img.get('system:time_start'))] *)
Definition Date_of (img : Image.t) : option Date.t := Image.system_time_start img.

(** Running an export evaluates the table: the task fails, and writes no
    file, when the computation of one of its rows fails. *)
Definition evaluate (t : FeatureCollection) : option FeatureCollection :=
  if existsb Feature.failed t then None else Some t.

End ee.

(** ** The script *)

Definition blocks (w : World) : Blocks :=
  featureCollection w "projects/xward-481405/assets/blocks_bihar".

Definition startDate : string := "2019-01-01".
Definition endDate : string := "2024-12-31".

Module Sentinel.

(** Sentinel-2 NDVI (image-level) *)
Definition s2 (w : World) : ImageCollection :=
  map (fun img =>
         let ndvi := Image.rename "NDVI" (Image.normalizedDifference ["B8"; "B4"]%string img) in
         Image.copyProperties ndvi img ["system:time_start"%string])
      (filter (ee.Filter_lt "CLOUDY_PIXEL_PERCENTAGE" (num 40))
         (ee.filterDate_str startDate endDate
            (ee.filterBounds (blocks w) (imageCollection w "COPERNICUS/S2_SR")))).

(** Reduce per image *)
Definition ndviTable (w : World) : FeatureCollection :=
  ee.flatten
    (map (fun img =>
            let date := ee.Date_of img in
            map (fun f =>
                   Feature.set_year_month (option_map Date.get_year date)
                                          (option_map Date.get_month date) f)
                (ee.reduceRegions (blocks w) ee.Reducer_mean 10 img))
         (s2 w)).

End Sentinel.

Definition chirps (w : World) : ImageCollection :=
  ee.filterDate_str startDate endDate
    (ee.filterBounds (blocks w) (imageCollection w "UCSB-CHG/CHIRPS/DAILY")).

(** Monthly rainfall *)
Definition monthlyRain (w : World) : ImageCollection :=
  ee.flatten
    (map (fun y =>
            map (fun m =>
                   let start := Date.fromYMD y m 1 in
                   let end_ := Date.advance_month 1 start in
                   let rain :=
                     Image.rename "Rainfall"
                       (ee.sum (ee.filterDate start end_ (chirps w))) in
                   Image.set_year_month_time y m (Date.millis start) rain)
                (ee.List_sequence 1 12))
         (ee.List_sequence 2019 2024)).

(** Reduce rainfall to blocks *)
Definition rainTable (w : World) : FeatureCollection :=
  ee.flatten
    (map (fun img =>
            map (fun f =>
                   Feature.set_year_month (Image.year img) (Image.month img) f)
                (ee.reduceRegions (blocks w) ee.Reducer_mean 5000 img))
         (monthlyRain w)).

(** MODIS ET (8-day, scaled) *)
Definition etCol (w : World) : ImageCollection :=
  map (fun img =>
         Image.copyProperties
           (Image.rename "ET" (Image.multiply (ratio 1 10) img))
           img ["system:time_start"%string])
      (map (Image.select "ET")
         (ee.filterDate_str startDate endDate
            (ee.filterBounds (blocks w) (imageCollection w "MODIS/061/MOD16A2")))).

(** Reduce first, aggregate later *)
Definition etTable (w : World) : FeatureCollection :=
  ee.flatten
    (map (fun img =>
            let date := ee.Date_of img in
            map (fun f =>
                   Feature.set_year_month (option_map Date.get_year date)
                                          (option_map Date.get_month date) f)
                (ee.reduceRegions (blocks w) ee.Reducer_mean 500 img))
         (etCol w)).

Module Modis.

Definition ndvi (w : World) : ImageCollection :=
  map (fun img =>
         Image.copyProperties
           (Image.rename "NDVI" (Image.multiply (ratio 1 10000) img))
           img ["system:time_start"%string])
      (map (Image.select "NDVI")
         (ee.filterDate_str "2019-01-01" "2024-12-31"
            (ee.filterBounds (blocks w) (imageCollection w "MODIS/061/MOD13Q1")))).

Definition ndviTable (w : World) : FeatureCollection :=
  ee.flatten
    (map (fun img =>
            let date := ee.Date_of img in
            map (fun f =>
                   Feature.set_year_month (option_map Date.get_year date)
                                          (option_map Date.get_month date) f)
                (ee.reduceRegions (blocks w) ee.Reducer_mean 250 img))
         (ndvi w)).

End Modis.

(** What running the script does, in order. *)
Inductive Event :=
| Map_centerObject (fc : Blocks) (zoom : Z)
| Map_addLayer (fc : Blocks) (color name : string)
| Export_table_toDrive (collection : FeatureCollection) (description fileFormat : string)
| print (label : string) (first : option Block.t).

Definition script (w : World) : list Event :=
  [ Map_centerObject (blocks w) 7;
    Map_addLayer (blocks w) "red" "Bihar Blocks";
    Export_table_toDrive (Sentinel.ndviTable w) "Bihar_Block_NDVI" "CSV";
    Export_table_toDrive (rainTable w) "Bihar_Block_Rainfall" "CSV";
    Export_table_toDrive (etTable w) "Bihar_Block_ET" "CSV";
    Export_table_toDrive (Modis.ndviTable w) "Bihar_Block_NDVI" "CSV";
    print "Block properties:" (hd_error (blocks w)) ].

(** The table exports of a run, as (description, table). *)
Definition exports (evs : list Event) : list (string * FeatureCollection) :=
  flat_map (fun e =>
              match e with
              | Export_table_toDrive c d _ => [(d, c)]
              | _ => []
              end) evs.

(** The exported tables. *)
Definition exported_tables (w : World) : list FeatureCollection :=
  map snd (exports (script w)).

(** ** Vocabulary of the properties *)

(** The step the three per-scene tables share: reduce one image over the
    blocks at some scale and set the year and month of its date on every
    row. *)
Definition reduce_and_tag (w : World) (scale : Z) (img : Image.t) : FeatureCollection :=
  let date := ee.Date_of img in
  map (fun f =>
         Feature.set_year_month (option_map Date.get_year date)
                                (option_map Date.get_month date) f)
      (ee.reduceRegions (blocks w) ee.Reducer_mean scale img).

(** The image the script builds for month [m] of year [y]. *)
Definition monthly_image (w : World) (y m : Z) : Image.t :=
  let start := Date.fromYMD y m 1 in
  let end_ := Date.advance_month 1 start in
  let rain := Image.rename "Rainfall" (ee.sum (ee.filterDate start end_ (chirps w))) in
  Image.set_year_month_time y m (Date.millis start) rain.

(** The rows of the rainfall table for one monthly image. *)
Definition rain_rows (w : World) (img : Image.t) : FeatureCollection :=
  map (fun f => Feature.set_year_month (Image.year img) (Image.month img) f)
      (ee.reduceRegions (blocks w) ee.Reducer_mean 5000 img).

(** Consecutive integers. *)
Definition Zrange (a : Z) (len : nat) : list Z :=
  map (fun k => a + Z.of_nat k) (seq 0 len).

(** The day number of the first day of the month after month [m] of [y]. *)
Definition next_month_start (y m : Z) : Z :=
  if m =? 12 then Date.days_from_civil (y + 1) 1 1
  else Date.days_from_civil y (m + 1) 1.

(** The months the script loops over. *)
Definition months_2019_2024 : list (Z * Z) :=
  list_prod (Zrange 2019 6) (Zrange 1 12).

Definition pair_eqb (a b : Z * Z) : bool :=
  (fst a =? fst b) && (snd a =? snd b).

(** A decidable check of one month of the loop: [advance(1, 'month')] from
    its first day is the first day of the next month, and every day number
    in between has that month as calendar month, with consecutive days of
    month from 1. *)
Definition month_window_ok (ym : Z * Z) : bool :=
  let '(y, m) := ym in
  let a := Date.days_from_civil y m 1 in
  let b := next_month_start y m in
  (Date.advance_month 1 (Date.fromYMD y m 1) =? b * Date.ms_per_day)
  && (17897 <=? a) && (a <? b) && (b <=? 20089)
  && forallb (fun n => pair_eqb (fst (Date.civil_from_days n)) (y, m)
                       && (1 <=? snd (Date.civil_from_days n))
                       && (snd (Date.civil_from_days n) =? n - a + 1))
             (Zrange a (Z.to_nat (b - a))).

(** A decidable check of one day of 2019..2024: its calendar month is a
    month of the loop and the day lies in that month's window. *)
Definition day_ok (n : Z) : bool :=
  let '(y, m, _) := Date.civil_from_days n in
  (2019 <=? y) && (y <=? 2024) && (1 <=? m) && (m <=? 12)
  && (Date.days_from_civil y m 1 <=? n) && (n <? next_month_start y m).

(** The image falls in calendar month [m] of year [y]. *)
Definition in_month (y m : Z) (img : Image.t) : bool :=
  match Image.system_time_start img with
  | Some x => (Date.get_year x =? y) && (Date.get_month x =? m)
  | None => false
  end.

(** The year and month a scene is tagged with. *)
Definition scene_month (img : Image.t) : option Z * option Z :=
  (option_map Date.get_year (Image.system_time_start img),
   option_map Date.get_month (Image.system_time_start img)).

(** The row of one scene and one block in a per-scene table. *)
Definition scene_row (scale : Z) (img : Image.t) (b : Block.t) : Feature.t :=
  Feature.make (Block.geometry b) (Block.block_id b)
    (ee.reduce_region ee.Reducer_mean scale img (Block.geometry b))
    (fst (scene_month img)) (snd (scene_month img)) (Image.failed img).

(** The row of one monthly image and one block in the rainfall table. *)
Definition rain_row (img : Image.t) (b : Block.t) : Feature.t :=
  Feature.make (Block.geometry b) (Block.block_id b)
    (ee.reduce_region ee.Reducer_mean 5000 img (Block.geometry b))
    (Image.year img) (Image.month img) (Image.failed img).

(** The key the spec gives the exported tables. *)
Definition key (r : Feature.t) : Z * option Z * option Z :=
  (Feature.block_id r, Feature.year r, Feature.month r).

Definition unique_key (t : FeatureCollection) : Prop := NoDup (map key t).

(** The images of the three per-scene collections, from their scenes. *)
Definition s2_image (img : Image.t) : Image.t :=
  Image.copyProperties
    (Image.rename "NDVI" (Image.normalizedDifference ["B8"; "B4"]%string img))
    img ["system:time_start"%string].

Definition scaled_image (band : string) (c : Qc) (img : Image.t) : Image.t :=
  Image.copyProperties
    (Image.rename band (Image.multiply c (Image.select band img)))
    img ["system:time_start"%string].

(** Duplicate-freeness of a list of months, decided. *)
Fixpoint nodupb (l : list (Z * Z)) : bool :=
  match l with
  | [] => true
  | x :: l' => negb (existsb (pair_eqb x) l') && nodupb l'
  end.

(** A catalogue entry: a single-band scene on day number [day] whose
    sample over every region is [px]. *)
Definition scene (band : string) (day : Z) (cloud : option Qc) (px : list Pixel) : Image.t :=
  Image.make [(band, fun _ _ => px)] (Some (day * Date.ms_per_day)) cloud None None
             (fun _ => true) false.

Definition block1 : Block.t := Block.make 1 101.

(** A world with one block and two evapotranspiration scenes of January
    2019 (the product is 8-daily). *)
Definition world_two_scenes : World :=
  {| featureCollection := fun _ => [block1];
     imageCollection := fun id =>
       if String.eqb id "MODIS/061/MOD16A2" then
         [scene "ET" (Date.days_from_civil 2019 1 1) None [Some (num 10)];
          scene "ET" (Date.days_from_civil 2019 1 9) None [Some (num 20)]]
       else [] |}.

(** The block mean of the already scaled pixels of band [band]. *)
Definition scaled_block_mean (band : string) (c : Qc) (scale : Z) (img : Image.t)
           (g : Geometry) : option Qc :=
  match Image.bands (Image.select band img) with
  | [(_, raster)] =>
      ee.Reducer_mean (ee.valid (map (option_map (Qcmult c)) (raster scale g)))
  | _ => None
  end.

(** The scene declares a cloud cover of 40 percent or more. *)
Definition cloudy (img : Image.t) : bool :=
  match Image.CLOUDY_PIXEL_PERCENTAGE img with
  | Some c => Qle_bool (num 40) c
  | None => false
  end.

(** The world without the cloudy scenes of the Sentinel-2 catalogue. *)
Definition without_cloudy (w : World) : World :=
  {| featureCollection := featureCollection w;
     imageCollection := fun id =>
       if String.eqb id "COPERNICUS/S2_SR"
       then filter (fun img => negb (cloudy img)) (imageCollection w id)
       else imageCollection w id |}.

(** No scene of the collection in month [m] of year [y] has an unmasked
    pixel over region [g] at that scale. *)
Definition no_valid_scene (col : ImageCollection) (scale : Z) (g : Geometry)
           (y m : Z) : Prop :=
  forall img b, In img col -> in_month y m img = true ->
                In b (Image.bands img) -> ee.valid (snd b scale g) = [].

(** A world with one block, one clear and one cloudy Sentinel-2 scene and
    one MODIS vegetation-index scene, all of January 2019. *)
Definition s2_scene (day : Z) (cloud : Qc) (b8 b4 : Z) : Image.t :=
  Image.make [("B4"%string, fun _ _ => [Some (num b4)]);
              ("B8"%string, fun _ _ => [Some (num b8)])]
             (Some (day * Date.ms_per_day)) (Some cloud) None None (fun _ => true)
             false.

Definition world_ndvi : World :=
  {| featureCollection := fun _ => [block1];
     imageCollection := fun id =>
       if String.eqb id "COPERNICUS/S2_SR" then
         [s2_scene (Date.days_from_civil 2019 1 5) (num 10) 3000 1000;
          s2_scene (Date.days_from_civil 2019 1 10) (num 80) 2000 2000]
       else if String.eqb id "MODIS/061/MOD13Q1" then
         [scene "NDVI" (Date.days_from_civil 2019 1 1) None [Some (num 6000)]]
       else [] |}.

(** Following the spec: the rainfall of a block in a month is the sum, over
    all daily rainfall images whose date falls within the calendar month, of
    the block's mean daily value (a day without a mean adds nothing, a month
    without any has no value).  The daily rainfall images are those of the
    catalogue that meet a block. *)
Definition daily_images (w : World) : ImageCollection :=
  ee.filterBounds (blocks w) (imageCollection w "UCSB-CHG/CHIRPS/DAILY").

Definition daily_block_mean (img : Image.t) (g : Geometry) : option Qc :=
  ee.reduce_region ee.Reducer_mean 5000 img g.

Definition spec_monthly_rainfall (w : World) (g : Geometry) (y m : Z) : option Qc :=
  match ee.valid (map (fun img => daily_block_mean img g)
                      (filter (in_month y m) (daily_images w))) with
  | [] => None
  | means => Some (ee.total means)
  end.

(** The claim that the rainfall table holds these sums. *)
Definition holds_sums_of_daily_means (w : World) : Prop :=
  forall r y m,
    In r (rainTable w) -> Feature.year r = Some y -> Feature.month r = Some m ->
    Feature.mean r = spec_monthly_rainfall w (Feature.geometry r) y m.

(** A world with one block and two daily rainfall scenes of January 2019;
    the second pixel of the block is masked on the first day. *)
Definition world_masked : World :=
  {| featureCollection := fun _ => [block1];
     imageCollection := fun id =>
       if String.eqb id "UCSB-CHG/CHIRPS/DAILY" then
         [scene "precipitation" (Date.days_from_civil 2019 1 1) None
                [Some (num 1); None];
          scene "precipitation" (Date.days_from_civil 2019 1 2) None
                [Some (num 1); Some (num 3)]]
       else [] |}.

(** A world with one block, fully sampled: two daily rainfall scenes of
    January 2019, and daily scenes on the 30th and 31st of December 2024. *)
Definition world_rain : World :=
  {| featureCollection := fun _ => [block1];
     imageCollection := fun id =>
       if String.eqb id "UCSB-CHG/CHIRPS/DAILY" then
         [scene "precipitation" (Date.days_from_civil 2019 1 1) None
                [Some (num 1); Some (num 2)];
          scene "precipitation" (Date.days_from_civil 2019 1 2) None
                [Some (num 1); Some (num 3)];
          scene "precipitation" (Date.days_from_civil 2024 12 30) None
                [Some (num 4); Some (num 4)];
          scene "precipitation" (Date.days_from_civil 2024 12 31) None
                [Some (num 7); Some (num 7)]]
       else [] |}.

(** The row belongs to block [id] and to month [m] of year [y]. *)
Definition is_value (o : option Z) (z : Z) : bool :=
  match o with
  | Some v => v =? z
  | None => false
  end.

Definition has_key (id y m : Z) (r : Feature.t) : bool :=
  (Feature.block_id r =? id) && is_value (Feature.year r) y
  && is_value (Feature.month r) m.

(** No unmasked pixel of the sample is negative. *)
Definition nonnegative (l : list Pixel) : Prop :=
  forall x, In (Some x) l -> (0 <= x)%Qc.

(** The scene meets a block and is stamped within the date range of the
    script. *)
Definition in_scope (w : World) (img : Image.t) : bool :=
  existsb (fun b => Image.footprint img (Block.geometry b)) (blocks w)
  && ee.in_range (Date.fromYMD 2019 1 1) (Date.fromYMD 2024 12 31) img.

(** The scene declares a cloud cover below 40 percent. *)
Definition clear (img : Image.t) : bool :=
  match Image.CLOUDY_PIXEL_PERCENTAGE img with
  | Some c => Qc_ltb c (num 40)
  | None => false
  end.


(** A world with one block and two daily rainfall scenes of January 2019
    that are masked all over the block. *)
Definition world_overcast : World :=
  {| featureCollection := fun _ => [block1];
     imageCollection := fun id =>
       if String.eqb id "UCSB-CHG/CHIRPS/DAILY" then
         [scene "precipitation" (Date.days_from_civil 2019 1 1) None [None; None];
          scene "precipitation" (Date.days_from_civil 2019 1 2) None [None; None]]
       else [] |}.

(** The month has a daily scene, the first of them has one band, and none
    of them fails: the sum of the month has one band to rename. *)
Definition usable_month (w : World) (ym : Z * Z) : bool :=
  match filter (in_month (fst ym) (snd ym)) (chirps w) with
  | [] => false
  | img :: rest =>
      (List.length (Image.bands img) =? 1)%nat
      && forallb (fun i => negb (Image.failed i)) (img :: rest)
  end.

(** The claim that the rainfall export holds an entry for every block and
    every month of the loop. *)
Definition has_entry_for_every_month (w : World) : Prop :=
  exists t,
    ee.evaluate (rainTable w) = Some t
    /\ forall b y m,
         In b (blocks w) -> 2019 <= y <= 2024 -> 1 <= m <= 12 ->
         exists r, In r t
                   /\ Feature.block_id r = Block.block_id b
                   /\ Feature.year r = Some y /\ Feature.month r = Some m.

(** A world with one block and one daily rainfall scene in the middle of
    every month of 2019..2024. *)
Definition world_monthly : World :=
  {| featureCollection := fun _ => [block1];
     imageCollection := fun id =>
       if String.eqb id "UCSB-CHG/CHIRPS/DAILY" then
         map (fun ym =>
                scene "precipitation" (Date.days_from_civil (fst ym) (snd ym) 15)
                      None [Some (num 1)])
             months_2019_2024
       else [] |}.

(** * Properties *)

(** ** Calendar facts *)

Example epoch : Date.civil_from_days 0 = (1970, 1, 1).
Proof. reflexivity. Qed.

Example leap_day_2024 :
  Date.civil_from_days (Date.days_from_civil 2024 2 29) = (2024, 2, 29)
  /\ Date.days_from_civil 2024 3 1 = Date.days_from_civil 2024 2 29 + 1.
Proof. split; reflexivity. Qed.

Example startDate_millis : Date.parse startDate = Some 1546300800000.
Proof. reflexivity. Qed.

Example endDate_millis : Date.parse endDate = Some 1735603200000.
Proof. reflexivity. Qed.

Example advance_from_january_31 :
  Date.advance_month 1 (Date.fromYMD 2023 1 31) = Date.fromYMD 2023 2 28.
Proof. reflexivity. Qed.

Example advance_over_new_year :
  Date.advance_month 1 (Date.fromYMD 2024 12 1) = Date.fromYMD 2025 1 1.
Proof. reflexivity. Qed.


Lemma in_Zrange (a n : Z) (len : nat) :
  a <= n < a + Z.of_nat len -> In n (Zrange a len).
Proof.
  intros H. unfold Zrange. apply in_map_iff.
  exists (Z.to_nat (n - a)). split; [lia|].
  apply in_seq. lia.
Qed.

Lemma List_sequence_spec (a b n : Z) :
  In n (ee.List_sequence a b) <-> a <= n <= b.
Proof.
  unfold ee.List_sequence. rewrite in_map_iff. split.
  - intros (k & <- & Hk). apply in_seq in Hk. lia.
  - intros H. exists (Z.to_nat (n - a)). split; [lia|]. apply in_seq. lia.
Qed.

Lemma month_range (n : Z) :
  1 <= snd (fst (Date.civil_from_days n)) <= 12.
Proof.
  unfold Date.civil_from_days. cbn [fst snd].
  set (z := n + 719468).
  set (era := z / 146097).
  set (doe := z - era * 146097).
  assert (Hdoe : 0 <= doe < 146097).
  { subst doe era. pose proof (Z.mod_pos_bound z 146097 ltac:(lia)).
    rewrite Z.mod_eq in H by lia. lia. }
  clearbody doe. clear z era.
  set (yoe := (doe - doe / 1460 + doe / 36524 - doe / 146096) / 365).
  set (doy := doe - (365 * yoe + yoe / 4 - yoe / 100)).
  assert (Hdoy : 0 <= doy <= 365).
  { subst doy yoe. Z.div_mod_to_equations. lia. }
  clearbody doy.
  destruct ((5 * doy + 2) / 153 <? 10) eqn:E.
  - apply Z.ltb_lt in E. Z.div_mod_to_equations. lia.
  - apply Z.ltb_ge in E. Z.div_mod_to_equations. lia.
Qed.

(** The two calendar conversions agree on every day number. *)
Lemma days_from_civil_from_days (n : Z) :
  let '(y, m, d) := Date.civil_from_days n in Date.days_from_civil y m d = n.
Proof.
  unfold Date.civil_from_days, Date.days_from_civil.
  set (z := n + 719468).
  set (era := z / 146097).
  set (doe := z - era * 146097).
  assert (Hdoe : 0 <= doe < 146097 /\ z = era * 146097 + doe).
  { subst doe era. pose proof (Z.mod_pos_bound z 146097 ltac:(lia)).
    rewrite Z.mod_eq in H by lia. lia. }
  assert (Hn : n = z - 719468) by (subst z; lia).
  clearbody doe era. clearbody z. subst n.
  set (yoe := (doe - doe / 1460 + doe / 36524 - doe / 146096) / 365).
  set (doy := doe - (365 * yoe + yoe / 4 - yoe / 100)).
  assert (Hyoe : 0 <= yoe <= 399 /\ 0 <= doy <= 365).
  { subst doy yoe. Z.div_mod_to_equations. lia. }
  set (mp := (5 * doy + 2) / 153).
  assert (Hmp : 0 <= mp <= 11) by (subst mp; Z.div_mod_to_equations; lia).
  assert (Hdoe' : doe = yoe * 365 + yoe / 4 - yoe / 100 + doy) by (subst doy; lia).
  clearbody doy. clearbody yoe.
  destruct (mp <? 10) eqn:E; [apply Z.ltb_lt in E|apply Z.ltb_ge in E].
  - replace (mp + 3 <=? 2) with false by (symmetry; apply Z.leb_gt; lia).
    replace (mp + 3 - 3) with mp by lia.
    replace ((yoe + era * 400) / 400) with era by (Z.div_mod_to_equations; lia).
    subst mp. Z.div_mod_to_equations. lia.
  - replace (mp - 9 <=? 2) with true by (symmetry; apply Z.leb_le; lia).
    replace (mp - 9 + 9) with mp by lia.
    assert (Hy : yoe + era * 400 + 1 - 1 = yoe + era * 400) by lia.
    rewrite Hy.
    replace ((yoe + era * 400) / 400) with era by (Z.div_mod_to_equations; lia).
    subst mp. Z.div_mod_to_equations. lia.
Qed.

Lemma get_month_range (x : Date.t) : 1 <= Date.get_month x <= 12.
Proof. apply month_range. Qed.

(** Years before 2019 and after 2024 lie outside the day numbers of
    2019-01-01 .. 2024-12-31. *)
Lemma year_of_early_day (n : Z) :
  n < 17897 -> fst (fst (Date.civil_from_days n)) <= 2018.
Proof.
  intros Hn. unfold Date.civil_from_days. cbn [fst snd].
  set (z := n + 719468).
  set (era := z / 146097).
  set (doe := z - era * 146097).
  assert (Hdoe : 0 <= doe < 146097 /\ z = era * 146097 + doe).
  { subst doe era. pose proof (Z.mod_pos_bound z 146097 ltac:(lia)).
    rewrite Z.mod_eq in H by lia. lia. }
  assert (Hz : z < 737365) by (subst z; lia).
  clearbody doe era. clearbody z.
  set (yoe := (doe - doe / 1460 + doe / 36524 - doe / 146096) / 365).
  set (doy := doe - (365 * yoe + yoe / 4 - yoe / 100)).
  assert (Hyoe : 0 <= yoe <= 399 /\ 0 <= doy <= 365).
  { subst doy yoe. Z.div_mod_to_equations. lia. }
  destruct ((5 * doy + 2) / 153 <? 10) eqn:E;
  match goal with |- context [if ?c then _ else _] => destruct c eqn:E2 end;
  try apply Z.leb_le in E2; try apply Z.leb_gt in E2;
  try apply Z.ltb_lt in E; try apply Z.ltb_ge in E;
  subst doy yoe; Z.div_mod_to_equations; lia.
Qed.

Lemma year_of_late_day (n : Z) :
  20089 <= n -> 2025 <= fst (fst (Date.civil_from_days n)).
Proof.
  intros Hn. unfold Date.civil_from_days. cbn [fst snd].
  set (z := n + 719468).
  set (era := z / 146097).
  set (doe := z - era * 146097).
  assert (Hdoe : 0 <= doe < 146097 /\ z = era * 146097 + doe).
  { subst doe era. pose proof (Z.mod_pos_bound z 146097 ltac:(lia)).
    rewrite Z.mod_eq in H by lia. lia. }
  assert (Hz : 739557 <= z) by (subst z; lia).
  clearbody doe era. clearbody z.
  set (yoe := (doe - doe / 1460 + doe / 36524 - doe / 146096) / 365).
  set (doy := doe - (365 * yoe + yoe / 4 - yoe / 100)).
  assert (Hyoe : 0 <= yoe <= 399 /\ 0 <= doy <= 365).
  { subst doy yoe. Z.div_mod_to_equations. lia. }
  destruct ((5 * doy + 2) / 153 <? 10) eqn:E;
  match goal with |- context [if ?c then _ else _] => destruct c eqn:E2 end;
  try apply Z.leb_le in E2; try apply Z.leb_gt in E2;
  try apply Z.ltb_lt in E; try apply Z.ltb_ge in E;
  subst doy yoe; Z.div_mod_to_equations; lia.
Qed.

Lemma in_months_2019_2024 (y m : Z) :
  2019 <= y <= 2024 -> 1 <= m <= 12 -> In (y, m) months_2019_2024.
Proof.
  intros Hy Hm. apply in_prod; apply in_Zrange; simpl; lia.
Qed.

Lemma month_windows_ok : forallb month_window_ok months_2019_2024 = true.
Proof. vm_compute. reflexivity. Qed.

Ltac split_andb :=
  repeat match goal with
         | H : (_ && _)%bool = true |- _ => apply andb_prop in H; destruct H
         end.

Lemma month_window_ok_spec (y m : Z) :
  month_window_ok (y, m) = true ->
  Date.advance_month 1 (Date.fromYMD y m 1) = next_month_start y m * Date.ms_per_day
  /\ 17897 <= Date.days_from_civil y m 1 < next_month_start y m
  /\ next_month_start y m <= 20089
  /\ forall n, Date.days_from_civil y m 1 <= n < next_month_start y m ->
       fst (Date.civil_from_days n) = (y, m)
       /\ snd (Date.civil_from_days n) = n - Date.days_from_civil y m 1 + 1.
Proof.
  unfold month_window_ok.
  generalize (Date.advance_month 1 (Date.fromYMD y m 1)).
  generalize (Date.days_from_civil y m 1) (next_month_start y m).
  generalize Date.civil_from_days Date.ms_per_day.
  intros civ ms a b adv H.
  apply andb_prop in H. destruct H as [H Hall].
  apply andb_prop in H. destruct H as [H H4].
  apply andb_prop in H. destruct H as [H H3].
  apply andb_prop in H. destruct H as [H1 H2].
  apply Z.eqb_eq in H1. apply Z.leb_le in H2. apply Z.ltb_lt in H3.
  apply Z.leb_le in H4.
  split; [exact H1|]. split; [lia|]. split; [exact H4|].
  intros n Hn.
  pose proof (proj1 (forallb_forall _ _) Hall n
                (in_Zrange a n (Z.to_nat (b - a)) ltac:(lia))) as Hc.
  cbv beta in Hc.
  apply andb_prop in Hc. destruct Hc as [Hc Hd].
  apply andb_prop in Hc. destruct Hc as [Hc _].
  unfold pair_eqb in Hc.
  apply andb_prop in Hc. destruct Hc as [Hy' Hm'].
  apply Z.eqb_eq in Hy', Hm', Hd. cbn [fst snd] in Hy', Hm'.
  split; [|exact Hd].
  destruct (fst (civ n)); cbn [fst snd] in *; congruence.
Qed.

Lemma month_window (y m : Z) :
  2019 <= y <= 2024 -> 1 <= m <= 12 ->
  Date.advance_month 1 (Date.fromYMD y m 1) = next_month_start y m * Date.ms_per_day
  /\ 17897 <= Date.days_from_civil y m 1 < next_month_start y m
  /\ next_month_start y m <= 20089
  /\ forall n, Date.days_from_civil y m 1 <= n < next_month_start y m ->
       fst (Date.civil_from_days n) = (y, m)
       /\ snd (Date.civil_from_days n) = n - Date.days_from_civil y m 1 + 1.
Proof.
  intros Hy Hm. apply month_window_ok_spec.
  exact (proj1 (forallb_forall _ _) month_windows_ok _
           (in_months_2019_2024 y m Hy Hm)).
Qed.

Lemma days_ok : forallb day_ok (Zrange 17897 2192) = true.
Proof. vm_compute. reflexivity. Qed.

Lemma day_ok_spec (n : Z) :
  day_ok n = true ->
  let y := fst (fst (Date.civil_from_days n)) in
  let m := snd (fst (Date.civil_from_days n)) in
  2019 <= y <= 2024 /\ 1 <= m <= 12
  /\ Date.days_from_civil y m 1 <= n < next_month_start y m.
Proof.
  unfold day_ok. destruct (Date.civil_from_days n) as [[y m] d]. cbn [fst snd].
  generalize (Date.days_from_civil y m 1) (next_month_start y m).
  intros a b H.
  apply andb_prop in H. destruct H as [H H6].
  apply andb_prop in H. destruct H as [H H5].
  apply andb_prop in H. destruct H as [H H4].
  apply andb_prop in H. destruct H as [H H3].
  apply andb_prop in H. destruct H as [H1 H2].
  apply Z.leb_le in H1, H2, H3, H4, H5. apply Z.ltb_lt in H6. lia.
Qed.

(** A day whose calendar year is one of 2019..2024 lies in the window of
    its calendar month. *)
Lemma day_in_its_window (n : Z) :
  let y := fst (fst (Date.civil_from_days n)) in
  let m := snd (fst (Date.civil_from_days n)) in
  2019 <= y <= 2024 ->
  Date.days_from_civil y m 1 <= n < next_month_start y m.
Proof.
  intros y m Hy.
  assert (Hn : 17897 <= n < 17897 + Z.of_nat 2192).
  { destruct (Z_lt_ge_dec n 17897) as [Hlo|Hlo].
    - pose proof (year_of_early_day n Hlo). subst y. lia.
    - destruct (Z_lt_ge_dec n 20089) as [Hhi|Hhi]; [lia|].
      pose proof (year_of_late_day n ltac:(lia)). subst y. lia. }
  pose proof (proj1 (forallb_forall _ _) days_ok n (in_Zrange _ _ _ Hn)) as H.
  apply day_ok_spec in H. subst y m. lia.
Qed.

Lemma day_number_bounds (a b x : Z) :
  a * Date.ms_per_day <= x < b * Date.ms_per_day <-> a <= Date.day_number x < b.
Proof.
  unfold Date.day_number, Date.ms_per_day. split; intros H.
  - Z.div_mod_to_equations. lia.
  - Z.div_mod_to_equations. lia.
Qed.

(** The window [start, start.advance(1, 'month')) of the loop is the
    calendar month. *)
Lemma window_is_calendar_month (y m : Z) (x : Date.t) :
  2019 <= y <= 2024 -> 1 <= m <= 12 ->
  (Date.fromYMD y m 1 <= x < Date.advance_month 1 (Date.fromYMD y m 1)
   <-> Date.get_year x = y /\ Date.get_month x = m).
Proof.
  intros Hy Hm.
  destruct (month_window y m Hy Hm) as (Hadv & Ha & Hb & Hin).
  rewrite Hadv. unfold Date.fromYMD. rewrite day_number_bounds.
  unfold Date.get_year, Date.get_month. split.
  - intros Hx. destruct (Hin _ Hx) as [E _]. rewrite E. split; reflexivity.
  - intros [Ey Em].
    pose proof (day_in_its_window (Date.day_number x)) as H.
    cbv zeta in H. rewrite Ey, Em in H. apply H. exact Hy.
Qed.

Lemma day_number_of_midnight (n : Z) : Date.day_number (n * Date.ms_per_day) = n.
Proof. unfold Date.day_number, Date.ms_per_day. apply Z.div_mul. lia. Qed.


Lemma in_range_in_month (y m : Z) (img : Image.t) :
  2019 <= y <= 2024 -> 1 <= m <= 12 ->
  ee.in_range (Date.fromYMD y m 1) (Date.advance_month 1 (Date.fromYMD y m 1)) img
  = in_month y m img.
Proof.
  intros Hy Hm. unfold ee.in_range, in_month.
  destruct (Image.system_time_start img) as [x|]; [|reflexivity].
  pose proof (window_is_calendar_month y m x Hy Hm) as H.
  apply eq_true_iff_eq. rewrite !andb_true_iff.
  rewrite Z.leb_le, Z.ltb_lt, !Z.eqb_eq. exact H.
Qed.

Lemma parse_startDate : Date.parse startDate = Some (Date.fromYMD 2019 1 1).
Proof. reflexivity. Qed.

Lemma parse_endDate : Date.parse endDate = Some (Date.fromYMD 2024 12 31).
Proof. reflexivity. Qed.

Lemma filterDate_script (col : ImageCollection) :
  ee.filterDate_str startDate endDate col
  = ee.filterDate (Date.fromYMD 2019 1 1) (Date.fromYMD 2024 12 31) col.
Proof.
  unfold ee.filterDate_str. rewrite parse_startDate, parse_endDate. reflexivity.
Qed.

(** ** Shape of the collections and tables *)

Lemma reduce_and_tag_rows (w : World) (scale : Z) (img : Image.t) :
  reduce_and_tag w scale img = map (scene_row scale img) (blocks w).
Proof.
  unfold reduce_and_tag, ee.reduceRegions, ee.Date_of. rewrite map_map.
  apply map_ext. intros b. reflexivity.
Qed.

Lemma rain_rows_rows (w : World) (img : Image.t) :
  rain_rows w img = map (rain_row img) (blocks w).
Proof.
  unfold rain_rows, ee.reduceRegions. rewrite map_map.
  apply map_ext. intros b. reflexivity.
Qed.

Lemma s2_table (w : World) :
  Sentinel.ndviTable w = ee.flatten (map (reduce_and_tag w 10) (Sentinel.s2 w)).
Proof. reflexivity. Qed.

Lemma et_table (w : World) :
  etTable w = ee.flatten (map (reduce_and_tag w 500) (etCol w)).
Proof. reflexivity. Qed.

Lemma modis_table (w : World) :
  Modis.ndviTable w = ee.flatten (map (reduce_and_tag w 250) (Modis.ndvi w)).
Proof. reflexivity. Qed.

Lemma rain_table (w : World) :
  rainTable w = ee.flatten (map (rain_rows w) (monthlyRain w)).
Proof. reflexivity. Qed.

Lemma monthlyRain_images (w : World) :
  monthlyRain w
  = ee.flatten
      (map (fun y => map (monthly_image w y) (ee.List_sequence 1 12))
           (ee.List_sequence 2019 2024)).
Proof. reflexivity. Qed.

Ltac table_rows H :=
  first [rewrite s2_table in H | rewrite et_table in H | rewrite modis_table in H].

Lemma per_scene_table (w : World) (scale : Z) (col : ImageCollection) :
  ee.flatten (map (reduce_and_tag w scale) col)
  = flat_map (fun img => map (scene_row scale img) (blocks w)) col.
Proof.
  unfold ee.flatten. rewrite <- flat_map_concat_map.
  apply flat_map_ext. intros img. apply reduce_and_tag_rows.
Qed.

Lemma rainTable_rows (w : World) :
  rainTable w = flat_map (fun img => map (rain_row img) (blocks w)) (monthlyRain w).
Proof.
  rewrite rain_table. unfold ee.flatten. rewrite <- flat_map_concat_map.
  apply flat_map_ext. intros img. apply rain_rows_rows.
Qed.

Lemma in_per_scene_table (w : World) (scale : Z) (col : ImageCollection) (r : Feature.t) :
  In r (ee.flatten (map (reduce_and_tag w scale) col))
  <-> exists img b, In img col /\ In b (blocks w) /\ r = scene_row scale img b.
Proof.
  rewrite per_scene_table, in_flat_map. split.
  - intros (img & Hi & Hr). apply in_map_iff in Hr. destruct Hr as (b & <- & Hb).
    exists img, b. auto.
  - intros (img & b & Hi & Hb & ->). exists img. split; [exact Hi|].
    apply in_map. exact Hb.
Qed.

Lemma in_rainTable (w : World) (r : Feature.t) :
  In r (rainTable w)
  <-> exists img b, In img (monthlyRain w) /\ In b (blocks w) /\ r = rain_row img b.
Proof.
  rewrite rainTable_rows, in_flat_map. split.
  - intros (img & Hi & Hr). apply in_map_iff in Hr. destruct Hr as (b & <- & Hb).
    exists img, b. auto.
  - intros (img & b & Hi & Hb & ->). exists img. split; [exact Hi|].
    apply in_map. exact Hb.
Qed.

Lemma in_monthlyRain (w : World) (img : Image.t) :
  In img (monthlyRain w)
  <-> exists y m, 2019 <= y <= 2024 /\ 1 <= m <= 12 /\ img = monthly_image w y m.
Proof.
  rewrite monthlyRain_images. unfold ee.flatten.
  rewrite <- flat_map_concat_map, in_flat_map.
  split.
  - intros (y & Hy & Hi). apply in_map_iff in Hi. destruct Hi as (m & <- & Hm).
    apply List_sequence_spec in Hy, Hm. exists y, m. auto.
  - intros (y & m & Hy & Hm & ->). exists y. split.
    + apply List_sequence_spec. exact Hy.
    + apply in_map. apply List_sequence_spec. exact Hm.
Qed.

(** Every collection of the script went through
    [filterDate('2019-01-01', '2024-12-31')]. *)
Lemma in_filterDate (a b : Date.t) (col : ImageCollection) (img : Image.t) :
  In img (ee.filterDate a b col)
  <-> In img col /\ exists x, Image.system_time_start img = Some x /\ a <= x < b.
Proof.
  unfold ee.filterDate. rewrite filter_In. unfold ee.in_range.
  destruct (Image.system_time_start img) as [x|].
  - rewrite andb_true_iff, Z.leb_le, Z.ltb_lt. split.
    + intros [H1 H2]. split; [exact H1|]. exists x. auto.
    + intros [H1 (x' & E & H2)]. injection E as <-. auto.
  - split; [intros [_ H]; discriminate|intros [_ (x & E & _)]; discriminate].
Qed.

Lemma in_chirps (w : World) (img : Image.t) :
  In img (chirps w) ->
  In img (imageCollection w "UCSB-CHG/CHIRPS/DAILY")
  /\ exists x, Image.system_time_start img = Some x
               /\ Date.fromYMD 2019 1 1 <= x < Date.fromYMD 2024 12 31.
Proof.
  unfold chirps. rewrite filterDate_script, in_filterDate.
  intros [H Hx]. split; [|exact Hx].
  unfold ee.filterBounds in H. apply filter_In in H. apply H.
Qed.

(** ** The collections, from the catalogue *)

Lemma s2_from_catalogue (w : World) :
  Sentinel.s2 w
  = map s2_image
      (filter (ee.Filter_lt "CLOUDY_PIXEL_PERCENTAGE" (num 40))
         (ee.filterDate (Date.fromYMD 2019 1 1) (Date.fromYMD 2024 12 31)
            (ee.filterBounds (blocks w) (imageCollection w "COPERNICUS/S2_SR")))).
Proof. unfold Sentinel.s2. rewrite filterDate_script. reflexivity. Qed.

(** Copying the properties from the selected image or from the scene is
    the same: selection keeps the properties, and its failure is passed on. *)
Lemma scaled_image_of_selected (band : string) (c : Qc) (img : Image.t) :
  Image.copyProperties
    (Image.rename band (Image.multiply c (Image.select band img)))
    (Image.select band img) ["system:time_start"%string]
  = scaled_image band c img.
Proof.
  unfold scaled_image, Image.copyProperties, Image.rename, Image.multiply,
    Image.select.
  destruct (filter (fun b => String.eqb (fst b) band) (Image.bands img))
    as [|[n r] [|b bs]]; cbn; destruct (Image.failed img); reflexivity.
Qed.

Lemma etCol_from_catalogue (w : World) :
  etCol w
  = map (scaled_image "ET" (ratio 1 10))
      (ee.filterDate (Date.fromYMD 2019 1 1) (Date.fromYMD 2024 12 31)
         (ee.filterBounds (blocks w) (imageCollection w "MODIS/061/MOD16A2"))).
Proof.
  unfold etCol. rewrite filterDate_script, map_map. apply map_ext.
  intros img. apply scaled_image_of_selected.
Qed.

Lemma ndvi_from_catalogue (w : World) :
  Modis.ndvi w
  = map (scaled_image "NDVI" (ratio 1 10000))
      (ee.filterDate (Date.fromYMD 2019 1 1) (Date.fromYMD 2024 12 31)
         (ee.filterBounds (blocks w) (imageCollection w "MODIS/061/MOD13Q1"))).
Proof.
  unfold Modis.ndvi. fold startDate endDate.
  rewrite filterDate_script, map_map. apply map_ext.
  intros img. apply scaled_image_of_selected.
Qed.

Lemma s2_image_time (img : Image.t) :
  Image.system_time_start (s2_image img) = Image.system_time_start img.
Proof. reflexivity. Qed.

Lemma scaled_image_time (band : string) (c : Qc) (img : Image.t) :
  Image.system_time_start (scaled_image band c img) = Image.system_time_start img.
Proof. reflexivity. Qed.

Lemma in_filterBounds (fc : Blocks) (col : ImageCollection) (img : Image.t) :
  In img (ee.filterBounds fc col) -> In img col.
Proof. unfold ee.filterBounds. intros H. apply filter_In in H. apply H. Qed.

Lemma in_s2 (w : World) (i : Image.t) :
  In i (Sentinel.s2 w) ->
  exists img c x,
    In img (imageCollection w "COPERNICUS/S2_SR")
    /\ i = s2_image img
    /\ Image.CLOUDY_PIXEL_PERCENTAGE img = Some c /\ (c < num 40)%Qc
    /\ Image.system_time_start img = Some x
    /\ Date.fromYMD 2019 1 1 <= x < Date.fromYMD 2024 12 31.
Proof.
  rewrite s2_from_catalogue, in_map_iff. intros (img & <- & H).
  apply filter_In in H. destruct H as [H Hc].
  apply in_filterDate in H. destruct H as [H (x & Hx & Hr)].
  apply in_filterBounds in H.
  unfold ee.Filter_lt in Hc. cbn in Hc.
  destruct (Image.CLOUDY_PIXEL_PERCENTAGE img) as [c|] eqn:E; [|discriminate].
  exists img, c, x. repeat split; try assumption; try apply Hr.
  unfold Qc_ltb in Hc. apply negb_true_iff in Hc.
  unfold Qclt. apply Qnot_le_lt. intros Hle.
  apply Qle_bool_iff in Hle. congruence.
Qed.

Lemma in_scaled (w : World) (id band : string) (c : Qc) (i : Image.t) :
  In i (map (scaled_image band c)
          (ee.filterDate (Date.fromYMD 2019 1 1) (Date.fromYMD 2024 12 31)
             (ee.filterBounds (blocks w) (imageCollection w id)))) ->
  exists img x,
    In img (imageCollection w id)
    /\ i = scaled_image band c img
    /\ Image.system_time_start img = Some x
    /\ Date.fromYMD 2019 1 1 <= x < Date.fromYMD 2024 12 31.
Proof.
  rewrite in_map_iff. intros (img & <- & H).
  apply in_filterDate in H. destruct H as [H (x & Hx & Hr)].
  apply in_filterBounds in H.
  exists img, x. repeat split; try assumption; apply Hr.
Qed.

Lemma reduce_region_scaled (band : string) (c : Qc) (scale : Z) (img : Image.t)
      (g : Geometry) :
  ee.reduce_region ee.Reducer_mean scale (scaled_image band c img) g
  = scaled_block_mean band c scale img g.
Proof.
  unfold ee.reduce_region, scaled_block_mean, scaled_image, Image.copyProperties.
  cbn [Image.bands]. unfold Image.rename, Image.multiply.
  cbn [Image.bands Image.computed].
  destruct (Image.bands (Image.select band img)) as [|[n r] [|b bs]]; reflexivity.
Qed.

(** ** Keys of the tables *)

Lemma pair_eqb_eq (a b : Z * Z) : pair_eqb a b = true <-> a = b.
Proof.
  unfold pair_eqb. destruct a as [a1 a2], b as [b1 b2]. cbn [fst snd].
  rewrite andb_true_iff, !Z.eqb_eq. split.
  - intros [-> ->]. reflexivity.
  - intros E. injection E as -> ->. auto.
Qed.

Lemma nodupb_NoDup (l : list (Z * Z)) : nodupb l = true -> NoDup l.
Proof.
  induction l as [|x l IH]; cbn [nodupb]; intros H.
  - constructor.
  - apply andb_prop in H. destruct H as [Hx Hl]. constructor.
    + intros Hin. apply negb_true_iff in Hx.
      assert (existsb (pair_eqb x) l = true) as E.
      { apply existsb_exists. exists x. split; [exact Hin|]. apply pair_eqb_eq. reflexivity. }
      congruence.
    + apply IH. exact Hl.
Qed.

Section Keys.
Context {I : Type} (row : I -> Block.t -> Feature.t) (tag : I -> option Z * option Z).
Variable bs : Blocks.
Hypothesis row_key :
  forall i b, key (row i b) = (Block.block_id b, fst (tag i), snd (tag i)).
Hypothesis ids_unique : NoDup (map Block.block_id bs).

Lemma keys_of_one (i : I) :
  map key (map (row i) bs)
  = map (fun id => (id, fst (tag i), snd (tag i))) (map Block.block_id bs).
Proof.
  rewrite !map_map. apply map_ext. intros b. apply row_key.
Qed.

Lemma keys_of_one_NoDup (i : I) : NoDup (map key (map (row i) bs)).
Proof.
  rewrite keys_of_one. apply Injective_map_NoDup; [|exact ids_unique].
  intros a b E. congruence.
Qed.

Lemma key_in_rows (items : list I) (k : Z * option Z * option Z) :
  In k (map key (flat_map (fun i => map (row i) bs) items)) ->
  In (snd (fst k), snd k) (map tag items).
Proof.
  intros H. apply in_map_iff in H. destruct H as (r & <- & Hr).
  apply in_flat_map in Hr. destruct Hr as (i & Hi & Hr).
  apply in_map_iff in Hr. destruct Hr as (b & <- & _).
  rewrite row_key. cbn [fst snd]. rewrite <- surjective_pairing.
  apply in_map. exact Hi.
Qed.

(** One row per item and block: the key is unique when no two items
    carry the same year and month. *)
Lemma rows_unique_key (items : list I) :
  NoDup (map tag items) ->
  unique_key (flat_map (fun i => map (row i) bs) items).
Proof.
  unfold unique_key. induction items as [|i items IH]; cbn [flat_map map]; intros H.
  - constructor.
  - inversion H as [|? ? Hnotin Hrest]; subst.
    rewrite map_app. apply NoDup_app.
    + apply keys_of_one_NoDup.
    + apply IH. exact Hrest.
    + intros k Hk1 Hk2. apply key_in_rows in Hk2.
      rewrite keys_of_one in Hk1. apply in_map_iff in Hk1.
      destruct Hk1 as (id & <- & _). cbn [fst snd] in Hk2.
      rewrite <- surjective_pairing in Hk2. contradiction.
Qed.

Lemma NoDup_app_disjoint {A} (l1 l2 : list A) (a : A) :
  NoDup (l1 ++ l2) -> In a l1 -> In a l2 -> False.
Proof.
  induction l1 as [|x l1 IH]; cbn [app]; intros H H1 H2; [contradiction|].
  inversion H as [|? ? Hn Hr]; subst. destruct H1 as [->|H1].
  - apply Hn. apply in_or_app. right. exact H2.
  - apply (IH Hr H1 H2).
Qed.

(** Conversely, with a block at hand, two items with the same year and
    month give two rows with the same key. *)
Lemma rows_unique_key_only_if (items : list I) :
  bs <> [] ->
  unique_key (flat_map (fun i => map (row i) bs) items) ->
  NoDup (map tag items).
Proof.
  intros Hbs.
  assert (Hex : exists b0, In b0 bs).
  { clear - Hbs. destruct bs as [|b0 bs']; [congruence|].
    exists b0. left. reflexivity. }
  destruct Hex as (b0 & Hb0). unfold unique_key. clear Hbs.
  induction items as [|i items IH]; cbn [flat_map map]; intros H.
  - constructor.
  - rewrite map_app in H. constructor.
    + intros Hin. apply in_map_iff in Hin. destruct Hin as (j & Ej & Hj).
      apply (NoDup_app_disjoint _ _ (key (row i b0)) H).
      * apply in_map. apply in_map. exact Hb0.
      * rewrite (row_key i b0), <- Ej, <- (row_key j b0).
        apply in_map. apply in_flat_map. exists j. split; [exact Hj|].
        apply in_map. exact Hb0.
    + apply IH. apply NoDup_app_remove_l in H. exact H.
Qed.
End Keys.

Lemma monthlyRain_months (w : World) :
  map (fun img => (Image.year img, Image.month img)) (monthlyRain w)
  = map (fun ym => (Some (fst ym), Some (snd ym))) months_2019_2024.
Proof.
  rewrite monthlyRain_images. unfold ee.flatten, months_2019_2024.
  change (ee.List_sequence 2019 2024) with (Zrange 2019 6).
  change (ee.List_sequence 1 12) with (Zrange 1 12).
  generalize (Zrange 2019 6) as ys. generalize (Zrange 1 12) as ms.
  intros ms ys. induction ys as [|y ys IH]; cbn [map List.concat list_prod].
  - reflexivity.
  - rewrite !map_app, IH. f_equal. rewrite !map_map. reflexivity.
Qed.

Lemma months_NoDup :
  NoDup (map (fun ym : Z * Z => (Some (fst ym), Some (snd ym))) months_2019_2024).
Proof.
  apply Injective_map_NoDup.
  - intros [a b] [c d] E. cbn [fst snd] in E. congruence.
  - apply nodupb_NoDup. vm_compute. reflexivity.
Qed.

Lemma rainTable_unique_key (w : World) :
  NoDup (map Block.block_id (blocks w)) -> unique_key (rainTable w).
Proof.
  intros H. rewrite rainTable_rows.
  apply (rows_unique_key rain_row (fun img => (Image.year img, Image.month img))).
  - intros i b. reflexivity.
  - exact H.
  - rewrite monthlyRain_months. apply months_NoDup.
Qed.

Lemma per_scene_unique_key (w : World) (scale : Z) (col : ImageCollection) :
  NoDup (map Block.block_id (blocks w)) ->
  NoDup (map scene_month col) ->
  unique_key (ee.flatten (map (reduce_and_tag w scale) col)).
Proof.
  intros H Hc. rewrite per_scene_table.
  apply (rows_unique_key (scene_row scale) scene_month).
  - intros i b. reflexivity.
  - exact H.
  - exact Hc.
Qed.

(** ** Sums and means of samples *)

Lemma valid_map2_padd (a b : list Pixel) :
  ee.valid a = [] -> ee.valid b = [] -> ee.valid (Image.map2 ee.padd a b) = [].
Proof.
  revert b. induction a as [|[x|] a IH]; intros [|[y|] b] Ha Hb;
    cbn in *; try reflexivity; try discriminate.
  apply IH; assumption.
Qed.

Lemma band_in_bands (n : string) (img : Image.t) (r : Raster) :
  Image.band n img = Some r -> exists b, In b (Image.bands img) /\ snd b = r.
Proof.
  unfold Image.band.
  destruct (find (fun b => String.eqb (fst b) n) (Image.bands img)) as [b|] eqn:E;
    [|discriminate].
  cbn. intros H. injection H as <-. apply find_some in E. exists b. split; [apply E|reflexivity].
Qed.

Lemma sum_fold_masked (n : string) (s : Z) (g : Geometry) (rest : ImageCollection) :
  (forall img b, In img rest -> In b (Image.bands img) -> ee.valid (snd b s g) = []) ->
  forall acc, ee.valid acc = [] ->
    ee.valid
      (fold_left
         (fun acc img' =>
            match Image.band n img' with
            | Some r' => Image.map2 ee.padd acc (r' s g)
            | None => acc
            end) rest acc) = [].
Proof.
  induction rest as [|img rest IH]; intros H acc Hacc; cbn [fold_left].
  - exact Hacc.
  - apply IH.
    + intros img' b Hi Hb. apply (H img' b); [right; exact Hi|exact Hb].
    + destruct (Image.band n img) as [r'|] eqn:E; [|exact Hacc].
      apply band_in_bands in E. destruct E as (b & Hb & <-).
      apply valid_map2_padd; [exact Hacc|].
      apply (H img b); [left; reflexivity|exact Hb].
Qed.

Lemma sum_masked (s : Z) (g : Geometry) (col : ImageCollection) :
  (forall img b, In img col -> In b (Image.bands img) -> ee.valid (snd b s g) = []) ->
  ee.reduce_region ee.Reducer_mean s (ee.sum col) g = None.
Proof.
  intros H. unfold ee.reduce_region. destruct col as [|img rest]; [reflexivity|].
  cbn [ee.sum Image.bands Image.computed].
  destruct (Image.bands img) as [|b [|b' bs]] eqn:E; cbn [map]; try reflexivity.
  rewrite sum_fold_masked; [reflexivity| |].
  - intros img' b' Hi Hb. apply (H img' b'); [right; exact Hi|exact Hb].
  - apply (H img b); [left; reflexivity|]. rewrite E. left. reflexivity.
Qed.

Lemma reduce_region_rename (red : ee.Reducer) (s : Z) (n : string) (img : Image.t)
      (g : Geometry) :
  ee.reduce_region red s (Image.rename n img) g = ee.reduce_region red s img g.
Proof.
  unfold ee.reduce_region, Image.rename.
  destruct (Image.bands img) as [|[n' r] [|b bs]] eqn:E; cbn; rewrite ?E; reflexivity.
Qed.

Lemma reduce_region_set (red : ee.Reducer) (s y m ms : Z) (img : Image.t) (g : Geometry) :
  ee.reduce_region red s (Image.set_year_month_time y m ms img) g
  = ee.reduce_region red s img g.
Proof. reflexivity. Qed.

(** The rainfall value of a month: the sum image of the daily scenes of
    the calendar month, reduced over the block. *)
Lemma monthly_image_mean (w : World) (y m : Z) (g : Geometry) :
  2019 <= y <= 2024 -> 1 <= m <= 12 ->
  ee.reduce_region ee.Reducer_mean 5000 (monthly_image w y m) g
  = ee.reduce_region ee.Reducer_mean 5000
      (ee.sum (filter (in_month y m) (chirps w))) g.
Proof.
  intros Hy Hm. unfold monthly_image.
  rewrite reduce_region_set.
  rewrite reduce_region_rename. unfold ee.filterDate.
  rewrite (filter_ext _ (in_month y m)); [reflexivity|].
  intros img. apply in_range_in_month; assumption.
Qed.

Lemma rain_row_mean (w : World) (r : Feature.t) (y m : Z) :
  In r (rainTable w) -> Feature.year r = Some y -> Feature.month r = Some m ->
  2019 <= y <= 2024 /\ 1 <= m <= 12
  /\ Feature.mean r
     = ee.reduce_region ee.Reducer_mean 5000
         (ee.sum (filter (in_month y m) (chirps w))) (Feature.geometry r).
Proof.
  intros Hr Hy Hm. apply in_rainTable in Hr.
  destruct Hr as (img & b & Hi & Hb & ->).
  apply in_monthlyRain in Hi. destruct Hi as (y' & m' & Hy' & Hm' & ->).
  cbn [rain_row Feature.year Feature.month Feature.geometry Feature.mean] in *.
  cbn in Hy, Hm. injection Hy as ->. injection Hm as ->.
  split; [exact Hy'|]. split; [exact Hm'|].
  apply monthly_image_mean; assumption.
Qed.


Lemma per_scene_key_only_if (w : World) (scale : Z) (col : ImageCollection) :
  blocks w <> [] ->
  unique_key (ee.flatten (map (reduce_and_tag w scale) col)) ->
  NoDup (map scene_month col).
Proof.
  intros Hb H. rewrite per_scene_table in H.
  apply (rows_unique_key_only_if (scene_row scale) scene_month (blocks w)
           (fun i b => eq_refl) col Hb H).
Qed.

(** ** C1: keys of the exported tables *)

(** C1, as stated, fails: with unique block identifiers, the exported
    evapotranspiration table of a world with two scenes in January 2019 has
    two rows with the same (block, year, month). *)
Lemma et_key_not_unique :
  NoDup (map Block.block_id (blocks world_two_scenes))
  /\ In (etTable world_two_scenes) (exported_tables world_two_scenes)
  /\ ~ unique_key (etTable world_two_scenes).
Proof.
  split; [|split].
  - repeat constructor. intros [].
  - cbn. right. right. left. reflexivity.
  - unfold unique_key.
    assert (E : map key (etTable world_two_scenes)
                = [(101, Some 2019, Some 1); (101, Some 2019, Some 1)])
      by (vm_compute; reflexivity).
    rewrite E. intros H. inversion H as [|? ? Hn _]; subst.
    apply Hn. left. reflexivity.
Qed.

(** C1, amended: block identifiers being unique, (block_id, year, month) is
    a unique key of the rainfall table, and the value of a rainfall row is
    the block mean of the sum image of its calendar month.  The
    evapotranspiration table and the two vegetation-index tables hold one
    row per scene and block, tagged with the year and month of the scene and
    valued with the block mean of that one scene; with at least one block,
    (block_id, year, month) is a key of such a table exactly when no two
    scenes of its collection fall in the same calendar month. *)
Theorem table_rows_and_keys (w : World) :
  NoDup (map Block.block_id (blocks w)) ->
  unique_key (rainTable w)
  /\ (forall r y m,
        In r (rainTable w) -> Feature.year r = Some y -> Feature.month r = Some m ->
        Feature.mean r
        = ee.reduce_region ee.Reducer_mean 5000
            (ee.sum (filter (in_month y m) (chirps w))) (Feature.geometry r))
  /\ Sentinel.ndviTable w
     = flat_map (fun img => map (scene_row 10 img) (blocks w)) (Sentinel.s2 w)
  /\ etTable w = flat_map (fun img => map (scene_row 500 img) (blocks w)) (etCol w)
  /\ Modis.ndviTable w
     = flat_map (fun img => map (scene_row 250 img) (blocks w)) (Modis.ndvi w)
  /\ (blocks w <> [] ->
      (unique_key (Sentinel.ndviTable w) <-> NoDup (map scene_month (Sentinel.s2 w)))
      /\ (unique_key (etTable w) <-> NoDup (map scene_month (etCol w)))
      /\ (unique_key (Modis.ndviTable w) <-> NoDup (map scene_month (Modis.ndvi w)))).
Proof.
  intros Hids. split; [apply rainTable_unique_key; exact Hids|].
  split; [intros r y m Hr Hy Hm;
          exact (proj2 (proj2 (rain_row_mean w r y m Hr Hy Hm)))|].
  rewrite s2_table, et_table, modis_table.
  split; [apply per_scene_table|]. split; [apply per_scene_table|].
  split; [apply per_scene_table|].
  intros Hb. repeat split;
    first [apply per_scene_key_only_if; exact Hb
          | intros Hc; apply per_scene_unique_key; assumption].
Qed.

Lemma table_rows_and_keys_witness :
  unique_key (rainTable world_two_scenes)
  /\ (unique_key (etTable world_two_scenes)
      <-> NoDup (map scene_month (etCol world_two_scenes))).
Proof.
  assert (H : NoDup (map Block.block_id (blocks world_two_scenes)))
    by (repeat constructor; intros []).
  split.
  - exact (proj1 (table_rows_and_keys world_two_scenes H)).
  - refine (proj1 (proj2 (proj2 (proj2 (proj2 (proj2 (proj2
              (table_rows_and_keys world_two_scenes H))))) _))).
    discriminate.
Defined.

(** ** C2: the monthly rainfall value *)

Lemma in_rainTable_at (w : World) (y m : Z) (b : Block.t) :
  2019 <= y <= 2024 -> 1 <= m <= 12 -> In b (blocks w) ->
  In (rain_row (monthly_image w y m) b) (rainTable w).
Proof.
  intros Hy Hm Hb. apply in_rainTable. exists (monthly_image w y m), b.
  split; [|split; [exact Hb|reflexivity]].
  apply in_monthlyRain. exists y, m. auto.
Qed.

(** C2, as stated, fails twice over.  The daily image of 2024-12-31 falls
    within December 2024 and is left out of its sum: the table holds 4 where
    the sum of the daily means of the month is 4 + 7.  And the script sums
    per pixel before it averages: where a pixel of the block is masked on
    one day of the month, the table holds the block mean of the per-pixel
    sums (5/2) and not the sum of the daily block means (3). *)
Lemma rainfall_not_sum_of_daily_means :
  ~ holds_sums_of_daily_means world_rain
  /\ ~ holds_sums_of_daily_means world_masked.
Proof.
  split; intros H.
  - specialize (H (rain_row (monthly_image world_rain 2024 12) block1) 2024 12
                  (in_rainTable_at world_rain 2024 12 block1
                     ltac:(lia) ltac:(lia) (or_introl eq_refl))
                  eq_refl eq_refl).
    apply (f_equal (option_map this)) in H. vm_compute in H. discriminate H.
  - specialize (H (rain_row (monthly_image world_masked 2019 1) block1) 2019 1
                  (in_rainTable_at world_masked 2019 1 block1
                     ltac:(lia) ltac:(lia) (or_introl eq_refl))
                  eq_refl eq_refl).
    apply (f_equal (option_map this)) in H. vm_compute in H. discriminate H.
Qed.

(** C2, amended: the rainfall value of a block and month is the block mean,
    at 5000 m, of the per-pixel sum (a masked pixel adds nothing) of the
    daily images of the script's date-filtered rainfall collection that fall
    within the calendar month: a sum of the daily images of the month, not a
    composite scene. *)
Theorem monthly_rainfall_value (w : World) (r : Feature.t) (y m : Z) :
  In r (rainTable w) -> Feature.year r = Some y -> Feature.month r = Some m ->
  (2019 <= y <= 2024 /\ 1 <= m <= 12)
  /\ Feature.mean r
     = ee.reduce_region ee.Reducer_mean 5000
         (ee.sum (filter (in_month y m) (chirps w))) (Feature.geometry r)
  /\ forall img,
       In img (filter (in_month y m) (chirps w))
       <-> In img (chirps w)
           /\ exists x, Image.system_time_start img = Some x
                        /\ Date.get_year x = y /\ Date.get_month x = m.
Proof.
  intros Hr Hy Hm. destruct (rain_row_mean w r y m Hr Hy Hm) as (Hy' & Hm' & E).
  split; [split; assumption|]. split; [exact E|].
  intros img. rewrite filter_In. unfold in_month.
  destruct (Image.system_time_start img) as [x|].
  - rewrite andb_true_iff, !Z.eqb_eq. split.
    + intros [Hi [E1 E2]]. split; [exact Hi|]. exists x. auto.
    + intros [Hi (x' & Ex & E1 & E2)]. injection Ex as <-. auto.
  - split; [intros [_ H]; discriminate|].
    intros [_ (x & Ex & _)]. discriminate.
Qed.

Lemma monthly_rainfall_value_witness :
  Feature.mean (rain_row (monthly_image world_rain 2019 1) block1)
  = ee.reduce_region ee.Reducer_mean 5000
      (ee.sum (filter (in_month 2019 1) (chirps world_rain))) 1.
Proof.
  refine (proj1 (proj2 (monthly_rainfall_value world_rain
                   (rain_row (monthly_image world_rain 2019 1) block1) 2019 1
                   _ eq_refl eq_refl))).
  apply in_rainTable_at; [lia|lia|left; reflexivity].
Defined.

(** ** C3: the scale factor comes before the spatial mean *)

(** C3: every row of the evapotranspiration table carries the block mean, at
    500 m, of the pixels of band ET of a catalogue scene each multiplied by
    0.1 beforehand; every row of the MODIS vegetation-index table the block
    mean, at 250 m, of the pixels of band NDVI each multiplied by 0.0001
    beforehand. *)
Theorem scale_factor_before_mean (w : World) (r : Feature.t) :
  (In r (etTable w) ->
   exists img b,
     In img (imageCollection w "MODIS/061/MOD16A2") /\ In b (blocks w)
     /\ Feature.geometry r = Block.geometry b
     /\ Feature.mean r
        = scaled_block_mean "ET" (ratio 1 10) 500 img (Block.geometry b))
  /\ (In r (Modis.ndviTable w) ->
      exists img b,
        In img (imageCollection w "MODIS/061/MOD13Q1") /\ In b (blocks w)
        /\ Feature.geometry r = Block.geometry b
        /\ Feature.mean r
           = scaled_block_mean "NDVI" (ratio 1 10000) 250 img (Block.geometry b)).
Proof.
  split; intros H.
  - rewrite et_table in H. apply in_per_scene_table in H.
    destruct H as (i & b & Hi & Hb & ->).
    rewrite etCol_from_catalogue in Hi. apply in_scaled in Hi.
    destruct Hi as (img & x & Himg & -> & _).
    exists img, b. repeat split; try assumption.
    cbn [scene_row Feature.mean]. apply reduce_region_scaled.
  - rewrite modis_table in H. apply in_per_scene_table in H.
    destruct H as (i & b & Hi & Hb & ->).
    rewrite ndvi_from_catalogue in Hi. apply in_scaled in Hi.
    destruct Hi as (img & x & Himg & -> & _).
    exists img, b. repeat split; try assumption.
    cbn [scene_row Feature.mean]. apply reduce_region_scaled.
Qed.

Lemma scale_factor_before_mean_witness :
  exists img b,
    In img (imageCollection world_two_scenes "MODIS/061/MOD16A2")
    /\ In b (blocks world_two_scenes)
    /\ Block.geometry block1 = Block.geometry b
    /\ Feature.mean
         (scene_row 500
            (scaled_image "ET" (ratio 1 10)
               (scene "ET" (Date.days_from_civil 2019 1 1) None [Some (num 10)]))
            block1)
       = scaled_block_mean "ET" (ratio 1 10) 500 img (Block.geometry b).
Proof.
  refine (proj1 (scale_factor_before_mean world_two_scenes
                   (scene_row 500
                      (scaled_image "ET" (ratio 1 10)
                         (scene "ET" (Date.days_from_civil 2019 1 1) None
                                [Some (num 10)]))
                      block1)) _).
  left. reflexivity.
Defined.

(** ** C4: the resolution of each reduction *)

(** C4: every row of the Sentinel-2 vegetation-index table is the mean of a
    Sentinel-2 image reduced at 10 m, every row of the MODIS
    vegetation-index table a mean at 250 m, every row of the
    evapotranspiration table a mean at 500 m, and every row of the rainfall
    table a mean, of a monthly image, at 5000 m. *)
Theorem reduction_scales (w : World) (r : Feature.t) :
  (In r (Sentinel.ndviTable w) ->
   exists img, In img (Sentinel.s2 w)
     /\ Feature.mean r = ee.reduce_region ee.Reducer_mean 10 img (Feature.geometry r))
  /\ (In r (Modis.ndviTable w) ->
      exists img, In img (Modis.ndvi w)
        /\ Feature.mean r = ee.reduce_region ee.Reducer_mean 250 img (Feature.geometry r))
  /\ (In r (etTable w) ->
      exists img, In img (etCol w)
        /\ Feature.mean r = ee.reduce_region ee.Reducer_mean 500 img (Feature.geometry r))
  /\ (In r (rainTable w) ->
      exists img, In img (monthlyRain w)
        /\ Feature.mean r = ee.reduce_region ee.Reducer_mean 5000 img (Feature.geometry r)).
Proof.
  repeat split; intros H.
  - table_rows H. apply in_per_scene_table in H.
    destruct H as (img & b & Hi & _ & ->).
    exists img. split; [exact Hi|reflexivity].
  - table_rows H. apply in_per_scene_table in H.
    destruct H as (img & b & Hi & _ & ->).
    exists img. split; [exact Hi|reflexivity].
  - table_rows H. apply in_per_scene_table in H.
    destruct H as (img & b & Hi & _ & ->).
    exists img. split; [exact Hi|reflexivity].
  - apply in_rainTable in H. destruct H as (img & b & Hi & _ & ->).
    exists img. split; [exact Hi|reflexivity].
Qed.

Lemma reduction_scales_witness :
  exists img,
    In img (monthlyRain world_rain)
    /\ Feature.mean (rain_row (monthly_image world_rain 2019 1) block1)
       = ee.reduce_region ee.Reducer_mean 5000 img 1.
Proof.
  refine (proj2 (proj2 (proj2 (reduction_scales world_rain
                   (rain_row (monthly_image world_rain 2019 1) block1)))) _).
  left. reflexivity.
Defined.

(** ** C5: cloudy scenes *)

Lemma filter_implied {A} (p q : A -> bool) (l : list A) :
  (forall a, p a = true -> q a = true) ->
  filter p (filter q l) = filter p l.
Proof.
  intros H. induction l as [|a l IH]; cbn [filter]; [reflexivity|].
  destruct (q a) eqn:Eq; cbn [filter].
  - rewrite IH. reflexivity.
  - destruct (p a) eqn:Ep; [|exact IH].
    apply H in Ep. congruence.
Qed.

Lemma filter_comm {A} (p q : A -> bool) (l : list A) :
  filter p (filter q l) = filter q (filter p l).
Proof.
  induction l as [|a l IH]; cbn [filter]; [reflexivity|].
  destruct (q a) eqn:Eq, (p a) eqn:Ep; cbn [filter];
    rewrite ?Eq, ?Ep, IH; reflexivity.
Qed.

Lemma clear_not_cloudy (img : Image.t) :
  ee.Filter_lt "CLOUDY_PIXEL_PERCENTAGE" (num 40) img = true ->
  negb (cloudy img) = true.
Proof.
  unfold ee.Filter_lt, cloudy. cbn.
  destruct (Image.CLOUDY_PIXEL_PERCENTAGE img) as [c|]; [|discriminate].
  unfold Qc_ltb. intros H. exact H.
Qed.

(** C5: the script filters the Sentinel-2 collection, the one whose scenes
    carry [CLOUDY_PIXEL_PERCENTAGE], on that property before it maps or
    reduces it.  Every row of the Sentinel-2 table comes from a scene that
    declares a cloud cover below 40 percent, no image of the collection
    comes from a scene with 40 percent or more, and the table is the same
    when these scenes are removed from the catalogue beforehand. *)
Theorem cloudy_scenes_excluded (w : World) :
  (forall r, In r (Sentinel.ndviTable w) ->
     exists img c b,
       In img (imageCollection w "COPERNICUS/S2_SR")
       /\ Image.CLOUDY_PIXEL_PERCENTAGE img = Some c /\ (c < num 40)%Qc
       /\ In b (blocks w) /\ r = scene_row 10 (s2_image img) b)
  /\ (forall i, In i (Sentinel.s2 w) ->
        exists img, In img (imageCollection w "COPERNICUS/S2_SR")
                    /\ i = s2_image img /\ cloudy img = false)
  /\ Sentinel.ndviTable (without_cloudy w) = Sentinel.ndviTable w.
Proof.
  split; [|split].
  - intros r H. rewrite s2_table in H. apply in_per_scene_table in H.
    destruct H as (i & b & Hi & Hb & ->).
    apply in_s2 in Hi. destruct Hi as (img & c & x & Himg & -> & Hc & Hlt & _).
    exists img, c, b. auto.
  - intros i Hi. apply in_s2 in Hi.
    destruct Hi as (img & c & x & Himg & -> & Hc & Hlt & _).
    exists img. repeat split; try assumption.
    unfold cloudy. rewrite Hc. apply not_true_is_false. intros Hle.
    apply Qle_bool_iff in Hle. unfold Qclt in Hlt.
    apply Qlt_not_le in Hlt. contradiction.
  - assert (E : Sentinel.s2 (without_cloudy w) = Sentinel.s2 w).
    { rewrite !s2_from_catalogue.
      change (blocks (without_cloudy w)) with (blocks w).
      change (imageCollection (without_cloudy w) "COPERNICUS/S2_SR")
        with (filter (fun img => negb (cloudy img))
                     (imageCollection w "COPERNICUS/S2_SR")).
      f_equal. unfold ee.filterDate, ee.filterBounds.
      rewrite (filter_comm _ (fun img => negb (cloudy img))).
      rewrite (filter_comm _ (fun img => negb (cloudy img))).
      apply filter_implied. exact clear_not_cloudy. }
    rewrite !s2_table, !per_scene_table, E. reflexivity.
Qed.

Lemma cloudy_scenes_excluded_witness :
  exists img c b,
    In img (imageCollection world_ndvi "COPERNICUS/S2_SR")
    /\ Image.CLOUDY_PIXEL_PERCENTAGE img = Some c /\ (c < num 40)%Qc
    /\ In b (blocks world_ndvi)
    /\ scene_row 10
         (s2_image (s2_scene (Date.days_from_civil 2019 1 5) (num 10) 3000 1000))
         block1
       = scene_row 10 (s2_image img) b.
Proof.
  refine (proj1 (cloudy_scenes_excluded world_ndvi) _ _).
  left. reflexivity.
Defined.

(** ** C6: no value without a valid scene *)

Lemma tagged_in_month (img : Image.t) (y m : Z) :
  fst (scene_month img) = Some y -> snd (scene_month img) = Some m ->
  in_month y m img = true.
Proof.
  unfold scene_month, in_month. cbn [fst snd].
  destruct (Image.system_time_start img) as [x|]; cbn; [|discriminate].
  intros Hy Hm. injection Hy as <-. injection Hm as <-.
  rewrite !Z.eqb_refl. reflexivity.
Qed.

Lemma scene_row_no_value (w : World) (scale : Z) (col : ImageCollection)
      (y m : Z) (r : Feature.t) :
  no_valid_scene col scale (Feature.geometry r) y m ->
  Feature.year r = Some y -> Feature.month r = Some m ->
  In r (ee.flatten (map (reduce_and_tag w scale) col)) ->
  Feature.mean r = None.
Proof.
  intros Hno Hy Hm Hr. apply in_per_scene_table in Hr.
  destruct Hr as (img & b & Hi & Hb & ->).
  cbn [scene_row Feature.year Feature.month Feature.geometry Feature.mean] in *.
  pose proof (tagged_in_month img y m Hy Hm) as Hin.
  unfold ee.reduce_region.
  destruct (Image.bands img) as [|[n raster] [|b' bs]] eqn:E; try reflexivity.
  pose proof (Hno img (n, raster) Hi Hin) as Hv. cbn [snd] in Hv.
  rewrite Hv; [reflexivity|]. rewrite E. left. reflexivity.
Qed.

(** C6: when no scene of a table's collection in a month has an unmasked
    pixel over a block, no row of that block and month carries a value: a
    per-scene table has no such row with a value, and the rainfall row of
    the month has an empty [mean] (with no scene at all in the month the row
    fails besides, and the export writes nothing). *)
Theorem no_fabricated_value (w : World) (y m : Z) (r : Feature.t) :
  Feature.year r = Some y -> Feature.month r = Some m ->
  (no_valid_scene (Sentinel.s2 w) 10 (Feature.geometry r) y m ->
   In r (Sentinel.ndviTable w) -> Feature.mean r = None)
  /\ (no_valid_scene (chirps w) 5000 (Feature.geometry r) y m ->
      In r (rainTable w) -> Feature.mean r = None)
  /\ (no_valid_scene (etCol w) 500 (Feature.geometry r) y m ->
      In r (etTable w) -> Feature.mean r = None)
  /\ (no_valid_scene (Modis.ndvi w) 250 (Feature.geometry r) y m ->
      In r (Modis.ndviTable w) -> Feature.mean r = None).
Proof.
  intros Hy Hm. repeat split; intros Hno Hr;
    try (table_rows Hr; apply (scene_row_no_value w _ _ y m r Hno Hy Hm Hr)).
  apply in_rainTable in Hr. destruct Hr as (img & b & Hi & Hb & ->).
  apply in_monthlyRain in Hi. destruct Hi as (y' & m' & Hy' & Hm' & ->).
  cbn [rain_row Feature.year Feature.month Feature.geometry Feature.mean] in *.
  cbn in Hy, Hm. injection Hy as ->. injection Hm as ->.
  rewrite monthly_image_mean by assumption.
  apply sum_masked. intros img b' Hi Hb'.
  apply filter_In in Hi. destruct Hi as [Hi Hin].
  apply (Hno img b' Hi Hin Hb').
Qed.

Lemma overcast_scenes :
  chirps world_overcast
  = [scene "precipitation" (Date.days_from_civil 2019 1 1) None [None; None];
     scene "precipitation" (Date.days_from_civil 2019 1 2) None [None; None]].
Proof. reflexivity. Qed.

Lemma no_fabricated_value_witness :
  Feature.mean (rain_row (monthly_image world_overcast 2019 1) block1) = None.
Proof.
  refine (proj1 (proj2 (no_fabricated_value world_overcast 2019 1
                          (rain_row (monthly_image world_overcast 2019 1) block1)
                          eq_refl eq_refl)) _ _).
  - intros img b H _ Hb. rewrite overcast_scenes in H.
    destruct H as [<-|[<-|[]]]; destruct Hb as [<-|[]]; reflexivity.
  - apply in_rainTable. exists (monthly_image world_overcast 2019 1), block1.
    split; [|split; [left; reflexivity|reflexivity]].
    apply in_monthlyRain. exists 2019, 1. repeat split; lia.
Defined.

(** ** C7: the columns of the exported tables *)

Lemma exported_tables_are (w : World) :
  exported_tables w
  = [Sentinel.ndviTable w; rainTable w; etTable w; Modis.ndviTable w].
Proof. reflexivity. Qed.





(** ** C8: the two vegetation-index exports *)

(** C8: the script issues four table exports; the two described
    ['Bihar_Block_NDVI'] are the Sentinel-2 table (10 m, cloud-filtered) and
    the MODIS table (250 m, scaled), in this order, and these are two
    different tables. *)
Theorem ndvi_exports_share_name :
  (forall w,
     map fst (exports (script w))
     = ["Bihar_Block_NDVI"; "Bihar_Block_Rainfall"; "Bihar_Block_ET"; "Bihar_Block_NDVI"]%string
     /\ filter (fun e => String.eqb (fst e) "Bihar_Block_NDVI") (exports (script w))
        = [("Bihar_Block_NDVI"%string, Sentinel.ndviTable w);
           ("Bihar_Block_NDVI"%string, Modis.ndviTable w)]
     /\ Sentinel.ndviTable w
        = flat_map (fun img => map (scene_row 10 img) (blocks w)) (Sentinel.s2 w)
     /\ Modis.ndviTable w
        = flat_map (fun img => map (scene_row 250 img) (blocks w)) (Modis.ndvi w))
  /\ Sentinel.ndviTable world_ndvi <> Modis.ndviTable world_ndvi.
Proof.
  split.
  - intros w. split; [reflexivity|]. split; [reflexivity|].
    rewrite s2_table, modis_table. split; apply per_scene_table.
  - intros E.
    apply (f_equal (map (fun r => option_map this (Feature.mean r)))) in E.
    vm_compute in E. discriminate E.
Qed.

(** ** C9: the 72 monthly images *)

Lemma monthlyRain_length (w : World) : List.length (monthlyRain w) = 72%nat.
Proof.
  rewrite <- (length_map (fun img => (Image.year img, Image.month img))).
  rewrite monthlyRain_months, length_map. reflexivity.
Qed.

Lemma length_rows {I} (row : I -> Block.t -> Feature.t) (bs : Blocks) (items : list I) :
  List.length (flat_map (fun i => map (row i) bs) items)
  = (List.length items * List.length bs)%nat.
Proof.
  induction items as [|i items IH]; cbn [flat_map List.length]; [reflexivity|].
  rewrite length_app, length_map, IH. reflexivity.
Qed.

Lemma evaluate_ok (t : FeatureCollection) :
  (forall r, In r t -> Feature.failed r = false) -> ee.evaluate t = Some t.
Proof.
  intros H. unfold ee.evaluate.
  destruct (existsb Feature.failed t) eqn:E; [|reflexivity].
  apply existsb_exists in E. destruct E as (r & Hr & Hf).
  rewrite (H r Hr) in Hf. discriminate.
Qed.

Lemma evaluate_failed (t : FeatureCollection) (r : Feature.t) :
  In r t -> Feature.failed r = true -> ee.evaluate t = None.
Proof.
  intros Hr Hf. unfold ee.evaluate.
  replace (existsb Feature.failed t) with true; [reflexivity|].
  symmetry. apply existsb_exists. exists r. auto.
Qed.

Lemma monthly_image_failed (w : World) (y m : Z) :
  2019 <= y <= 2024 -> 1 <= m <= 12 ->
  Image.failed (monthly_image w y m)
  = Image.failed
      (Image.rename "Rainfall" (ee.sum (filter (in_month y m) (chirps w)))).
Proof.
  intros Hy Hm. unfold monthly_image, ee.filterDate.
  rewrite (filter_ext _ (in_month y m)); [reflexivity|].
  intros img. apply in_range_in_month; assumption.
Qed.

(** The image of a month without daily scene fails: its sum has no band to
    rename. *)
Lemma empty_month_fails (w : World) (y m : Z) :
  2019 <= y <= 2024 -> 1 <= m <= 12 ->
  filter (in_month y m) (chirps w) = [] ->
  Image.failed (monthly_image w y m) = true.
Proof.
  intros Hy Hm E. rewrite monthly_image_failed by assumption.
  rewrite E. reflexivity.
Qed.

Lemma usable_month_ok (w : World) (y m : Z) :
  2019 <= y <= 2024 -> 1 <= m <= 12 ->
  usable_month w (y, m) = true ->
  Image.failed (monthly_image w y m) = false.
Proof.
  intros Hy Hm H. rewrite monthly_image_failed by assumption.
  unfold usable_month in H. cbn [fst snd] in H.
  destruct (filter (in_month y m) (chirps w)) as [|img rest]; [discriminate|].
  apply andb_prop in H. destruct H as [Hb Hf].
  apply Nat.eqb_eq in Hb.
  destruct (Image.bands img) as [|[n r] [|b bs]] eqn:E; try discriminate Hb.
  unfold Image.rename. cbn [ee.sum Image.bands Image.computed].
  rewrite E. cbn [map Image.failed Image.with_bands Image.computed].
  destruct (existsb Image.failed (img :: rest)) eqn:Ef; [|reflexivity].
  apply existsb_exists in Ef. destruct Ef as (i & Hi & Hif).
  pose proof (proj1 (forallb_forall _ _) Hf i Hi) as Hn.
  cbv beta in Hn. rewrite Hif in Hn. discriminate.
Qed.

(** C9, as stated, fails: in a world with a block and no daily rainfall
    scene the 72 monthly images are built, but each is the renaming of a sum
    without band, which fails, and the export with it: the table has no
    entry at all. *)
Lemma no_entry_without_scenes : ~ has_entry_for_every_month world_two_scenes.
Proof.
  intros (t & E & _).
  assert (F : ee.evaluate (rainTable world_two_scenes) = None)
    by (vm_compute; reflexivity).
  rewrite F in E. discriminate.
Qed.

(** C9, amended: whatever the catalogue holds, the monthly rainfall
    collection consists of 72 images, one for each year 2019..2024 and month
    1..12, in order and without repetition.  The image of a month without
    daily scene is the renaming of a sum without band, which fails, and with
    a block at hand the export of the table fails with it.  When every
    month has a daily scene (the first with one band, none failing), the
    export succeeds and the table has a row for every block and every one
    of the 72 months, 72 rows per block. *)
Theorem monthly_images_unconditional (w : World) :
  List.length (monthlyRain w) = 72%nat
  /\ map (fun img => (Image.year img, Image.month img)) (monthlyRain w)
     = map (fun ym => (Some (fst ym), Some (snd ym))) months_2019_2024
  /\ NoDup (map (fun img => (Image.year img, Image.month img)) (monthlyRain w))
  /\ (forall y m, 2019 <= y <= 2024 -> 1 <= m <= 12 ->
        In (monthly_image w y m) (monthlyRain w)
        /\ (filter (in_month y m) (chirps w) = [] ->
            Image.failed (monthly_image w y m) = true
            /\ (blocks w <> [] -> ee.evaluate (rainTable w) = None)))
  /\ (forallb (usable_month w) months_2019_2024 = true ->
      ee.evaluate (rainTable w) = Some (rainTable w)
      /\ List.length (rainTable w) = (72 * List.length (blocks w))%nat
      /\ forall b y m,
           In b (blocks w) -> 2019 <= y <= 2024 -> 1 <= m <= 12 ->
           exists r, In r (rainTable w)
                     /\ Feature.block_id r = Block.block_id b
                     /\ Feature.geometry r = Block.geometry b
                     /\ Feature.year r = Some y /\ Feature.month r = Some m).
Proof.
  split; [apply monthlyRain_length|].
  split; [apply monthlyRain_months|].
  split; [rewrite monthlyRain_months; apply months_NoDup|].
  split.
  - intros y m Hy Hm.
    assert (Hin : In (monthly_image w y m) (monthlyRain w)).
    { apply in_monthlyRain. exists y, m. auto. }
    split; [exact Hin|]. intros E.
    pose proof (empty_month_fails w y m Hy Hm E) as Hf.
    split; [exact Hf|]. intros Hb.
    destruct (blocks w) as [|b0 bs] eqn:Eb; [congruence|].
    apply (evaluate_failed _ (rain_row (monthly_image w y m) b0)); [|exact Hf].
    apply in_rainTable. exists (monthly_image w y m), b0.
    rewrite Eb. split; [exact Hin|]. split; [left; reflexivity|reflexivity].
  - intros Hall. split; [|split].
    + apply evaluate_ok. intros r Hr. apply in_rainTable in Hr.
      destruct Hr as (i & b & Hi & _ & ->).
      apply in_monthlyRain in Hi. destruct Hi as (y & m & Hy & Hm & ->).
      cbn [rain_row Feature.failed]. apply usable_month_ok; try assumption.
      apply (proj1 (forallb_forall _ _) Hall (y, m)).
      apply in_months_2019_2024; assumption.
    + rewrite rainTable_rows, length_rows, monthlyRain_length. reflexivity.
    + intros b y m Hb Hy Hm.
      exists (rain_row (monthly_image w y m) b). split.
      * apply in_rainTable. exists (monthly_image w y m), b.
        split; [|split; [exact Hb|reflexivity]].
        apply in_monthlyRain. exists y, m. auto.
      * cbn. auto.
Qed.

(** A world with a daily scene in every month gets its 72 rows. *)
Lemma monthly_images_unconditional_witness :
  ee.evaluate (rainTable world_monthly) = Some (rainTable world_monthly)
  /\ List.length (rainTable world_monthly) = 72%nat.
Proof.
  assert (H : forallb (usable_month world_monthly) months_2019_2024 = true)
    by (vm_compute; reflexivity).
  destruct (proj2 (proj2 (proj2 (proj2 (monthly_images_unconditional world_monthly)))) H)
    as (E & L & _).
  split; [exact E|exact L].
Defined.

(** ** C10: the exclusive end of the date range *)

Lemma december_2024_days (x : Date.t) :
  Date.fromYMD 2024 12 1 <= x < Date.fromYMD 2024 12 31 ->
  Date.get_year x = 2024 /\ Date.get_month x = 12 /\ 1 <= Date.get_day x <= 30.
Proof.
  intros Hx.
  destruct (month_window 2024 12 ltac:(lia) ltac:(lia)) as (_ & _ & _ & Hin).
  assert (Hn : Date.days_from_civil 2024 12 1 <= Date.day_number x
               < Date.days_from_civil 2024 12 31).
  { apply day_number_bounds. exact Hx. }
  change (Date.days_from_civil 2024 12 1) with 20058 in *.
  change (Date.days_from_civil 2024 12 31) with 20088 in *.
  change (next_month_start 2024 12) with 20089 in *.
  destruct (Hin (Date.day_number x) ltac:(lia)) as [E1 E2].
  unfold Date.get_year, Date.get_month, Date.get_day.
  rewrite E1, E2. cbn [fst snd]. lia.
Qed.

(** C10: [filterDate] takes its end date ['2024-12-31'] as exclusive: every
    image of the four source collections is dated strictly before
    2024-12-31T00:00, and the daily images summed for December 2024 all fall
    on the first to the thirtieth of that month. *)
Theorem end_date_exclusive (w : World) :
  (forall img,
     In img (Sentinel.s2 w) \/ In img (chirps w) \/ In img (etCol w)
     \/ In img (Modis.ndvi w) ->
     exists x, Image.system_time_start img = Some x
               /\ x < Date.fromYMD 2024 12 31)
  /\ (forall img,
        In img (ee.filterDate (Date.fromYMD 2024 12 1)
                  (Date.advance_month 1 (Date.fromYMD 2024 12 1)) (chirps w)) ->
        exists x, Image.system_time_start img = Some x
                  /\ Date.get_year x = 2024 /\ Date.get_month x = 12
                  /\ 1 <= Date.get_day x <= 30).
Proof.
  split.
  - intros img [H|[H|[H|H]]].
    + apply in_s2 in H. destruct H as (i & c & x & _ & -> & _ & _ & Hx & Hr).
      exists x. split; [exact Hx|lia].
    + apply in_chirps in H. destruct H as (_ & x & Hx & Hr).
      exists x. split; [exact Hx|lia].
    + rewrite etCol_from_catalogue in H. apply in_scaled in H.
      destruct H as (i & x & _ & -> & Hx & Hr). exists x. split; [exact Hx|lia].
    + rewrite ndvi_from_catalogue in H. apply in_scaled in H.
      destruct H as (i & x & _ & -> & Hx & Hr). exists x. split; [exact Hx|lia].
  - intros img H. apply in_filterDate in H. destruct H as (Hc & x & Hx & Hr).
    apply in_chirps in Hc. destruct Hc as (_ & x' & Hx' & Hr').
    rewrite Hx in Hx'. injection Hx' as <-.
    exists x. split; [exact Hx|]. apply december_2024_days. lia.
Qed.

Lemma december_2024_scenes :
  ee.filterDate (Date.fromYMD 2024 12 1)
    (Date.advance_month 1 (Date.fromYMD 2024 12 1)) (chirps world_rain)
  = [scene "precipitation" (Date.days_from_civil 2024 12 30) None
           [Some (num 4); Some (num 4)]].
Proof. reflexivity. Qed.

Lemma end_date_exclusive_witness :
  exists x,
    Image.system_time_start
      (scene "precipitation" (Date.days_from_civil 2024 12 30) None
             [Some (num 4); Some (num 4)]) = Some x
    /\ Date.get_year x = 2024 /\ Date.get_month x = 12
    /\ 1 <= Date.get_day x <= 30.
Proof.
  refine (proj2 (end_date_exclusive world_rain) _ _).
  rewrite december_2024_scenes. left. reflexivity.
Defined.

(** The scene of 2024-12-31 is in the catalogue, not in the script's daily
    collection, and the December 2024 value is that of the 30th alone. *)
Example december_2024_drops_last_day :
  In (scene "precipitation" (Date.days_from_civil 2024 12 31) None
            [Some (num 7); Some (num 7)])
     (imageCollection world_rain "UCSB-CHG/CHIRPS/DAILY")
  /\ List.length (chirps world_rain) = 3%nat
  /\ Feature.mean (rain_row (monthly_image world_rain 2024 12) block1)
     = Some (num 4).
Proof.
  split; [|split].
  - cbn. do 3 right. left. reflexivity.
  - reflexivity.
  - cbn [rain_row Feature.mean].
    assert (E : option_map this
                  (ee.reduce_region ee.Reducer_mean 5000
                     (monthly_image world_rain 2024 12) (Block.geometry block1))
                = Some (4 # 1)%Q) by (vm_compute; reflexivity).
    destruct (ee.reduce_region _ _ _ _) as [v|]; [|discriminate].
    cbn in E. injection E as E. f_equal. apply Qc_is_canon. rewrite E. reflexivity.
Qed.

(** * Further properties of the script *)

(** ** Dates of the rows *)

Lemma year_in_range (x : Date.t) :
  Date.fromYMD 2019 1 1 <= x < Date.fromYMD 2024 12 31 ->
  2019 <= Date.get_year x <= 2024.
Proof.
  intros Hx.
  assert (Hn : 17897 <= Date.day_number x < 20088).
  { apply day_number_bounds. exact Hx. }
  pose proof (proj1 (forallb_forall _ _) days_ok (Date.day_number x)
                (in_Zrange 17897 (Date.day_number x) 2192 ltac:(lia))) as H.
  apply day_ok_spec in H. cbv zeta in H. unfold Date.get_year. lia.
Qed.

Lemma scene_row_dated (scale : Z) (img : Image.t) (b : Block.t) (x : Date.t) :
  Image.system_time_start img = Some x ->
  Feature.year (scene_row scale img b) = Some (Date.get_year x)
  /\ Feature.month (scene_row scale img b) = Some (Date.get_month x).
Proof.
  intros Hx. unfold scene_row, scene_month. rewrite Hx. split; reflexivity.
Qed.

(** X1: every row of the three per-scene tables is tagged with the year and the
    month of the acquisition date of a scene of the table's catalogue
    collection: the time stamp survives the per-pixel computation because it
    is copied back onto the computed image. *)
Theorem rows_tagged_with_scene_date (w : World) (r : Feature.t) :
  (In r (Sentinel.ndviTable w) ->
   exists img x, In img (imageCollection w "COPERNICUS/S2_SR")
     /\ Image.system_time_start img = Some x
     /\ Feature.year r = Some (Date.get_year x)
     /\ Feature.month r = Some (Date.get_month x))
  /\ (In r (etTable w) ->
      exists img x, In img (imageCollection w "MODIS/061/MOD16A2")
        /\ Image.system_time_start img = Some x
        /\ Feature.year r = Some (Date.get_year x)
        /\ Feature.month r = Some (Date.get_month x))
  /\ (In r (Modis.ndviTable w) ->
      exists img x, In img (imageCollection w "MODIS/061/MOD13Q1")
        /\ Image.system_time_start img = Some x
        /\ Feature.year r = Some (Date.get_year x)
        /\ Feature.month r = Some (Date.get_month x)).
Proof.
  repeat split; intros H; table_rows H; apply in_per_scene_table in H;
    destruct H as (i & b & Hi & _ & ->).
  - apply in_s2 in Hi. destruct Hi as (img & c & x & Himg & -> & _ & _ & Hx & _).
    exists img, x. split; [exact Himg|]. split; [exact Hx|].
    apply scene_row_dated. exact Hx.
  - rewrite etCol_from_catalogue in Hi. apply in_scaled in Hi.
    destruct Hi as (img & x & Himg & -> & Hx & _).
    exists img, x. split; [exact Himg|]. split; [exact Hx|].
    apply scene_row_dated. exact Hx.
  - rewrite ndvi_from_catalogue in Hi. apply in_scaled in Hi.
    destruct Hi as (img & x & Himg & -> & Hx & _).
    exists img, x. split; [exact Himg|]. split; [exact Hx|].
    apply scene_row_dated. exact Hx.
Qed.

Lemma rows_tagged_with_scene_date_witness :
  exists img x,
    In img (imageCollection world_two_scenes "MODIS/061/MOD16A2")
    /\ Image.system_time_start img = Some x
    /\ Feature.year
         (scene_row 500
            (scaled_image "ET" (ratio 1 10)
               (scene "ET" (Date.days_from_civil 2019 1 1) None [Some (num 10)]))
            block1) = Some (Date.get_year x)
    /\ Feature.month
         (scene_row 500
            (scaled_image "ET" (ratio 1 10)
               (scene "ET" (Date.days_from_civil 2019 1 1) None [Some (num 10)]))
            block1) = Some (Date.get_month x).
Proof.
  refine (proj1 (proj2 (rows_tagged_with_scene_date world_two_scenes _)) _).
  left. reflexivity.
Defined.

(** X2: every row of every exported table has a year between 2019 and 2024. *)
Theorem row_years_in_range (w : World) (t : FeatureCollection) (r : Feature.t) :
  In t (exported_tables w) -> In r t ->
  exists y, Feature.year r = Some y /\ 2019 <= y <= 2024.
Proof.
  rewrite exported_tables_are. intros Ht Hr.
  destruct Ht as [<-|[<-|[<-|[<-|[]]]]].
  - table_rows Hr. apply in_per_scene_table in Hr.
    destruct Hr as (i & b & Hi & _ & ->).
    apply in_s2 in Hi. destruct Hi as (img & c & x & _ & -> & _ & _ & Hx & Hr).
    exists (Date.get_year x). split; [|apply year_in_range; exact Hr].
    apply (scene_row_dated 10 (s2_image img) b x Hx).
  - apply in_rainTable in Hr. destruct Hr as (i & b & Hi & _ & ->).
    apply in_monthlyRain in Hi. destruct Hi as (y & m & Hy & _ & ->).
    exists y. split; [reflexivity|exact Hy].
  - table_rows Hr. apply in_per_scene_table in Hr.
    destruct Hr as (i & b & Hi & _ & ->).
    rewrite etCol_from_catalogue in Hi. apply in_scaled in Hi.
    destruct Hi as (img & x & _ & -> & Hx & Hr).
    exists (Date.get_year x). split; [|apply year_in_range; exact Hr].
    apply (scene_row_dated 500 _ b x Hx).
  - table_rows Hr. apply in_per_scene_table in Hr.
    destruct Hr as (i & b & Hi & _ & ->).
    rewrite ndvi_from_catalogue in Hi. apply in_scaled in Hi.
    destruct Hi as (img & x & _ & -> & Hx & Hr).
    exists (Date.get_year x). split; [|apply year_in_range; exact Hr].
    apply (scene_row_dated 250 _ b x Hx).
Qed.

Lemma row_years_in_range_witness :
  exists y,
    Feature.year
      (scene_row 500
         (scaled_image "ET" (ratio 1 10)
            (scene "ET" (Date.days_from_civil 2019 1 1) None [Some (num 10)]))
         block1) = Some y
    /\ 2019 <= y <= 2024.
Proof.
  refine (row_years_in_range world_two_scenes (etTable world_two_scenes) _ _ _).
  - cbn. right. right. left. reflexivity.
  - left. reflexivity.
Defined.

(** ** The monthly windows *)

(** X3: every monthly rainfall image is stamped with midnight of the first day
    of its month, and its [year] and [month] properties are the calendar
    year and month of that time stamp: the rainfall rows, tagged from the
    properties, follow the same convention as the rows tagged from dates. *)
Theorem monthly_image_stamp (w : World) (img : Image.t) :
  In img (monthlyRain w) ->
  exists y m x,
    Image.year img = Some y /\ Image.month img = Some m
    /\ Image.system_time_start img = Some x
    /\ x = Date.fromYMD y m 1
    /\ Date.get_year x = y /\ Date.get_month x = m /\ Date.get_day x = 1
    /\ Date.time_of_day x = 0.
Proof.
  intros H. apply in_monthlyRain in H. destruct H as (y & m & Hy & Hm & ->).
  exists y, m, (Date.fromYMD y m 1).
  split; [reflexivity|]. split; [reflexivity|]. split; [reflexivity|].
  split; [reflexivity|].
  destruct (month_window y m Hy Hm) as (_ & Ha & _ & Hin).
  destruct (Hin (Date.days_from_civil y m 1) ltac:(lia)) as [E1 E2].
  unfold Date.get_year, Date.get_month, Date.get_day, Date.fromYMD.
  rewrite day_number_of_midnight, E1, E2. cbn [fst snd].
  repeat split; try lia.
  unfold Date.time_of_day, Date.ms_per_day. apply Z.mod_mul. lia.
Qed.

Lemma monthly_image_stamp_witness :
  exists y m x,
    Image.year (monthly_image world_rain 2024 2) = Some y
    /\ Image.month (monthly_image world_rain 2024 2) = Some m
    /\ Image.system_time_start (monthly_image world_rain 2024 2) = Some x
    /\ x = Date.fromYMD y m 1
    /\ Date.get_year x = y /\ Date.get_month x = m /\ Date.get_day x = 1
    /\ Date.time_of_day x = 0.
Proof.
  refine (monthly_image_stamp world_rain (monthly_image world_rain 2024 2) _).
  apply in_monthlyRain. exists 2024, 2. repeat split; lia.
Defined.

(** X4: the monthly windows neither drop nor double count a daily scene: every
    image of the daily rainfall collection lies in the window of exactly one
    month of the loop, the calendar month of its date. *)
Theorem daily_scene_in_one_month (w : World) (img : Image.t) :
  In img (chirps w) ->
  exists y m,
    2019 <= y <= 2024 /\ 1 <= m <= 12
    /\ in_month y m img = true
    /\ In img (ee.filterDate (Date.fromYMD y m 1)
                 (Date.advance_month 1 (Date.fromYMD y m 1)) (chirps w))
    /\ forall y' m',
         2019 <= y' <= 2024 -> 1 <= m' <= 12 ->
         In img (ee.filterDate (Date.fromYMD y' m' 1)
                   (Date.advance_month 1 (Date.fromYMD y' m' 1)) (chirps w)) ->
         y' = y /\ m' = m.
Proof.
  intros H. destruct (in_chirps w img H) as (_ & x & Hx & Hr).
  pose proof (year_in_range x Hr) as Hy.
  pose proof (get_month_range x) as Hm.
  exists (Date.get_year x), (Date.get_month x).
  split; [exact Hy|]. split; [exact Hm|].
  assert (Hin : in_month (Date.get_year x) (Date.get_month x) img = true).
  { unfold in_month. rewrite Hx, !Z.eqb_refl. reflexivity. }
  split; [exact Hin|]. split.
  - unfold ee.filterDate. apply filter_In. split; [exact H|].
    rewrite in_range_in_month by assumption. exact Hin.
  - intros y' m' Hy' Hm' H'.
    unfold ee.filterDate in H'. apply filter_In in H'. destruct H' as [_ H'].
    rewrite in_range_in_month in H' by assumption.
    unfold in_month in H'. rewrite Hx in H'.
    apply andb_prop in H'. destruct H' as [E1 E2].
    apply Z.eqb_eq in E1, E2. auto.
Qed.

Lemma daily_scene_in_one_month_witness :
  exists y m,
    2019 <= y <= 2024 /\ 1 <= m <= 12
    /\ in_month y m
         (scene "precipitation" (Date.days_from_civil 2019 1 1) None
                [Some (num 1); Some (num 2)]) = true.
Proof.
  destruct (daily_scene_in_one_month world_rain
              (scene "precipitation" (Date.days_from_civil 2019 1 1) None
                     [Some (num 1); Some (num 2)]))
    as (y & m & Hy & Hm & Hin & _).
  - left. reflexivity.
  - exists y, m. auto.
Defined.

(** ** Sizes of the tables *)

Lemma length_per_scene_table (w : World) (scale : Z) (col : ImageCollection) :
  List.length (ee.flatten (map (reduce_and_tag w scale) col))
  = (List.length col * List.length (blocks w))%nat.
Proof. rewrite per_scene_table. apply length_rows. Qed.

(** X5: a per-scene table has one row for every block and every scene that
    passed the filters, hence at most as many rows as blocks times catalogue
    scenes; the three per-scene tables are empty when the boundary asset
    is. *)
Theorem table_sizes (w : World) :
  (List.length (Sentinel.ndviTable w)
   = (List.length (Sentinel.s2 w) * List.length (blocks w))%nat
   /\ (List.length (Sentinel.s2 w)
       <= List.length (imageCollection w "COPERNICUS/S2_SR"))%nat)
  /\ (List.length (etTable w)
      = (List.length (etCol w) * List.length (blocks w))%nat
      /\ (List.length (etCol w)
          <= List.length (imageCollection w "MODIS/061/MOD16A2"))%nat)
  /\ (List.length (Modis.ndviTable w)
      = (List.length (Modis.ndvi w) * List.length (blocks w))%nat
      /\ (List.length (Modis.ndvi w)
          <= List.length (imageCollection w "MODIS/061/MOD13Q1"))%nat)
  /\ (blocks w = [] ->
      Sentinel.ndviTable w = [] /\ etTable w = [] /\ Modis.ndviTable w = []).
Proof.
  assert (Hf : forall (p q r : Image.t -> bool) (l : ImageCollection),
             (List.length (filter p (filter q (filter r l))) <= List.length l)%nat).
  { intros p q r l.
    pose proof (filter_length_le p (filter q (filter r l))).
    pose proof (filter_length_le q (filter r l)).
    pose proof (filter_length_le r l). lia. }
  assert (Hg : forall (q r : Image.t -> bool) (l : ImageCollection),
             (List.length (filter q (filter r l)) <= List.length l)%nat).
  { intros q r l.
    pose proof (filter_length_le q (filter r l)).
    pose proof (filter_length_le r l). lia. }
  split; [|split; [|split; [|]]].
  - split; [rewrite s2_table; apply length_per_scene_table|].
    rewrite s2_from_catalogue, length_map. apply Hf.
  - split; [rewrite et_table; apply length_per_scene_table|].
    rewrite etCol_from_catalogue, length_map. apply Hg.
  - split; [rewrite modis_table; apply length_per_scene_table|].
    rewrite ndvi_from_catalogue, length_map. apply Hg.
  - intros Hb.
    assert (Hz : forall t : FeatureCollection, List.length t = 0%nat -> t = [])
      by (intros [|r t] Ht; [reflexivity|discriminate]).
    repeat split; apply Hz.
    + rewrite s2_table, length_per_scene_table, Hb. cbn. lia.
    + rewrite et_table, length_per_scene_table, Hb. cbn. lia.
    + rewrite modis_table, length_per_scene_table, Hb. cbn. lia.
Qed.

(** ** Independence of the tables *)

(** X6: each exported table is a function of the boundary asset and of its own
    catalogue collection alone: two worlds that agree on these give the same
    table, whatever their other collections hold. *)
Theorem tables_depend_on_own_collection (w w' : World) :
  blocks w = blocks w' ->
  (imageCollection w "COPERNICUS/S2_SR" = imageCollection w' "COPERNICUS/S2_SR" ->
   Sentinel.ndviTable w = Sentinel.ndviTable w')
  /\ (imageCollection w "UCSB-CHG/CHIRPS/DAILY"
      = imageCollection w' "UCSB-CHG/CHIRPS/DAILY" ->
      rainTable w = rainTable w')
  /\ (imageCollection w "MODIS/061/MOD16A2" = imageCollection w' "MODIS/061/MOD16A2" ->
      etTable w = etTable w')
  /\ (imageCollection w "MODIS/061/MOD13Q1" = imageCollection w' "MODIS/061/MOD13Q1" ->
      Modis.ndviTable w = Modis.ndviTable w').
Proof.
  intros Hb. repeat split; intros Hc.
  - unfold Sentinel.ndviTable, Sentinel.s2. rewrite Hb, Hc. reflexivity.
  - unfold rainTable, monthlyRain, chirps. rewrite Hb, Hc. reflexivity.
  - unfold etTable, etCol. rewrite Hb, Hc. reflexivity.
  - unfold Modis.ndviTable, Modis.ndvi. rewrite Hb, Hc. reflexivity.
Qed.

Lemma tables_depend_on_own_collection_witness :
  rainTable world_two_scenes = rainTable world_ndvi.
Proof.
  refine (proj1 (proj2 (tables_depend_on_own_collection
                          world_two_scenes world_ndvi eq_refl)) eq_refl).
Defined.

(** ** Which scenes are used *)

Lemma filter_fused {A} (p q : A -> bool) (l : list A) :
  filter p (filter q l) = filter (fun a => q a && p a) l.
Proof.
  induction l as [|a l IH]; cbn [filter]; [reflexivity|].
  destruct (q a); cbn [filter andb]; [destruct (p a)|]; rewrite IH; reflexivity.
Qed.

Lemma in_scope_filter (w : World) (col : ImageCollection) :
  ee.filterDate (Date.fromYMD 2019 1 1) (Date.fromYMD 2024 12 31)
    (ee.filterBounds (blocks w) col)
  = filter (in_scope w) col.
Proof. unfold ee.filterDate, ee.filterBounds. apply filter_fused. Qed.

(** X7: the four collections hold, in catalogue order, exactly the catalogue
    scenes that meet a block and are stamped from 2019-01-01T00:00
    (included) to 2024-12-31T00:00 (excluded), for Sentinel-2 those of them
    that declare a cloud cover below 40; a scene without time stamp, or a
    Sentinel-2 scene without cloud property, is left out. *)
Theorem source_selection (w : World) :
  Sentinel.s2 w
  = map s2_image
      (filter (fun img => in_scope w img && clear img)
         (imageCollection w "COPERNICUS/S2_SR"))
  /\ chirps w = filter (in_scope w) (imageCollection w "UCSB-CHG/CHIRPS/DAILY")
  /\ etCol w
     = map (scaled_image "ET" (ratio 1 10))
         (filter (in_scope w) (imageCollection w "MODIS/061/MOD16A2"))
  /\ Modis.ndvi w
     = map (scaled_image "NDVI" (ratio 1 10000))
         (filter (in_scope w) (imageCollection w "MODIS/061/MOD13Q1"))
  /\ (forall img,
        in_scope w img = true
        <-> (exists b, In b (blocks w)
                       /\ Image.footprint img (Block.geometry b) = true)
            /\ exists x, Image.system_time_start img = Some x
                         /\ 1546300800000 <= x < 1735603200000)
  /\ (forall img,
        clear img = true
        <-> exists c, Image.CLOUDY_PIXEL_PERCENTAGE img = Some c /\ (c < num 40)%Qc).
Proof.
  split; [|split; [|split; [|split; [|split]]]].
  - rewrite s2_from_catalogue, in_scope_filter, filter_fused. reflexivity.
  - unfold chirps. rewrite filterDate_script. apply in_scope_filter.
  - rewrite etCol_from_catalogue, in_scope_filter. reflexivity.
  - rewrite ndvi_from_catalogue, in_scope_filter. reflexivity.
  - intros img. unfold in_scope, ee.in_range.
    rewrite andb_true_iff, existsb_exists.
    change (Date.fromYMD 2019 1 1) with 1546300800000.
    change (Date.fromYMD 2024 12 31) with 1735603200000.
    destruct (Image.system_time_start img) as [x|].
    + rewrite andb_true_iff, Z.leb_le, Z.ltb_lt. split.
      * intros [Hb Hx]. split; [exact Hb|]. exists x. auto.
      * intros [Hb (x' & E & Hx)]. injection E as <-. auto.
    + split; [intros [_ H]; discriminate|].
      intros [_ (x & E & _)]. discriminate.
  - intros img. unfold clear.
    destruct (Image.CLOUDY_PIXEL_PERCENTAGE img) as [c|].
    + unfold Qc_ltb. rewrite negb_true_iff. split.
      * intros H. exists c. split; [reflexivity|].
        unfold Qclt. apply Qnot_le_lt. intros Hle.
        apply Qle_bool_iff in Hle. congruence.
      * intros (c' & E & Hlt). injection E as <-.
        apply not_true_is_false. intros Hle. apply Qle_bool_iff in Hle.
        unfold Qclt in Hlt. apply Qlt_not_le in Hlt. contradiction.
    + split; [discriminate|]. intros (c & E & _). discriminate.
Qed.

(** ** Bounds of the means *)

Lemma num_succ (z : Z) : num (Z.succ z) = (num z + 1)%Qc.
Proof.
  apply Qc_is_canon. unfold num, Qcplus, Q2Qc. cbn [this].
  rewrite !Qred_correct. unfold Z.succ. rewrite inject_Z_plus. reflexivity.
Qed.

Lemma num_0 : num 0 = 0%Qc.
Proof. apply Qc_is_canon. reflexivity. Qed.

Lemma num_nonneg (k : nat) : (0 <= num (Z.of_nat k))%Qc.
Proof.
  induction k as [|k IH].
  - change (Z.of_nat 0) with 0. rewrite num_0. apply Qcle_refl.
  - rewrite Nat2Z.inj_succ, num_succ.
    replace 0%Qc with (0 + 0)%Qc by ring.
    apply Qcplus_le_compat; [exact IH|]. discriminate.
Qed.

Lemma num_pos (k : nat) : (0 < num (Z.of_nat (S k)))%Qc.
Proof.
  rewrite Nat2Z.inj_succ, num_succ.
  apply Qcle_lt_trans with (num (Z.of_nat k) + 0)%Qc.
  - rewrite Qcplus_0_r. apply num_nonneg.
  - apply Qclt_minus_iff.
    replace (num (Z.of_nat k) + 1 + - (num (Z.of_nat k) + 0))%Qc with 1%Qc by ring.
    reflexivity.
Qed.

Lemma total_lower (lo : Qc) (l : list Qc) :
  (forall x, In x l -> lo <= x)%Qc ->
  (lo * num (Z.of_nat (List.length l)) <= ee.total l)%Qc.
Proof.
  induction l as [|x l IH]; intros H.
  - cbn [List.length ee.total fold_right]. change (Z.of_nat 0) with 0.
    rewrite num_0, Qcmult_0_r. apply Qcle_refl.
  - cbn [List.length ee.total fold_right]. fold (ee.total l).
    rewrite Nat2Z.inj_succ, num_succ.
    replace (lo * (num (Z.of_nat (List.length l)) + 1))%Qc
      with (lo + lo * num (Z.of_nat (List.length l)))%Qc by ring.
    apply Qcplus_le_compat.
    + apply H. left. reflexivity.
    + apply IH. intros y Hy. apply H. right. exact Hy.
Qed.

Lemma total_upper (hi : Qc) (l : list Qc) :
  (forall x, In x l -> x <= hi)%Qc ->
  (ee.total l <= hi * num (Z.of_nat (List.length l)))%Qc.
Proof.
  induction l as [|x l IH]; intros H.
  - cbn [List.length ee.total fold_right]. change (Z.of_nat 0) with 0.
    rewrite num_0, Qcmult_0_r. apply Qcle_refl.
  - cbn [List.length ee.total fold_right]. fold (ee.total l).
    rewrite Nat2Z.inj_succ, num_succ.
    replace (hi * (num (Z.of_nat (List.length l)) + 1))%Qc
      with (hi + hi * num (Z.of_nat (List.length l)))%Qc by ring.
    apply Qcplus_le_compat.
    + apply H. left. reflexivity.
    + apply IH. intros y Hy. apply H. right. exact Hy.
Qed.

Lemma div_mul_cancel (t n : Qc) : n <> 0%Qc -> (t / n * n)%Qc = t.
Proof. intros Hn. rewrite Qcmult_comm. apply Qcmult_div_r. exact Hn. Qed.

(** The mean lies between any bounds of its inputs. *)
Lemma mean_lower (lo v : Qc) (l : list Qc) :
  (forall x, In x l -> lo <= x)%Qc -> ee.Reducer_mean l = Some v -> (lo <= v)%Qc.
Proof.
  intros H E. destruct l as [|x l]; [discriminate|].
  unfold ee.Reducer_mean in E. injection E as <-.
  pose proof (num_pos (List.length l)) as Hn.
  apply Qcmult_lt_0_le_reg_r with (num (Z.of_nat (S (List.length l)))); [exact Hn|].
  change (S (List.length l)) with (List.length (x :: l)).
  rewrite div_mul_cancel.
  - apply (total_lower lo (x :: l)). exact H.
  - intros E0. cbn [List.length] in E0. rewrite E0 in Hn. discriminate Hn.
Qed.

Lemma mean_upper (hi v : Qc) (l : list Qc) :
  (forall x, In x l -> x <= hi)%Qc -> ee.Reducer_mean l = Some v -> (v <= hi)%Qc.
Proof.
  intros H E. destruct l as [|x l]; [discriminate|].
  unfold ee.Reducer_mean in E. injection E as <-.
  pose proof (num_pos (List.length l)) as Hn.
  apply Qcmult_lt_0_le_reg_r with (num (Z.of_nat (S (List.length l)))); [exact Hn|].
  change (S (List.length l)) with (List.length (x :: l)).
  rewrite div_mul_cancel.
  - apply (total_upper hi (x :: l)). exact H.
  - intros E0. cbn [List.length] in E0. rewrite E0 in Hn. discriminate Hn.
Qed.

Lemma in_valid (x : Qc) (l : list Pixel) : In x (ee.valid l) <-> In (Some x) l.
Proof.
  induction l as [|[y|] l IH]; cbn.
  - tauto.
  - rewrite IH. split; intros [H|H]; auto.
    + left. congruence.
    + left. congruence.
  - rewrite IH. split; [auto|]. intros [H|H]; [discriminate|exact H].
Qed.

Lemma in_map2 {A B C} (f : A -> B -> C) (l : list A) (l' : list B) (c : C) :
  In c (Image.map2 f l l') -> exists a b, In a l /\ In b l' /\ c = f a b.
Proof.
  revert l'. induction l as [|a l IH]; intros [|b l'] H; cbn in H; try contradiction.
  destruct H as [<-|H].
  - exists a, b. cbn. auto.
  - destruct (IH l' H) as (a' & b' & Ha & Hb & ->). exists a', b'. cbn. auto.
Qed.

Lemma Qc_ltb_false (x y : Qc) : Qc_ltb x y = false -> (y <= x)%Qc.
Proof.
  unfold Qc_ltb. intros H. apply negb_false_iff in H.
  apply Qle_bool_iff in H. exact H.
Qed.

Lemma double_nonneg (x : Qc) : (0 <= x)%Qc -> (0 <= x + x)%Qc.
Proof.
  intros H. replace 0%Qc with (0 + 0)%Qc by ring.
  apply Qcplus_le_compat; exact H.
Qed.

(** A normalized difference lies between -1 and 1. *)
Lemma nd_pixel_range (a b : Pixel) (v : Qc) :
  Image.nd_pixel a b = Some v -> (- (1) <= v /\ v <= 1)%Qc.
Proof.
  unfold Image.nd_pixel. destruct a as [x|], b as [y|]; try discriminate.
  destruct (Qc_ltb x 0) eqn:Ex; [discriminate|].
  destruct (Qc_ltb y 0) eqn:Ey; [discriminate|].
  unfold Qc_eq_bool. destruct (Qc_eq_dec (x + y) 0) as [|Hz]; [discriminate|].
  cbn [orb]. intros E. injection E as <-.
  apply Qc_ltb_false in Ex, Ey.
  assert (Hpos : (0 < x + y)%Qc).
  { assert (Hle : (0 <= x + y)%Qc).
    { replace 0%Qc with (0 + 0)%Qc by ring. apply Qcplus_le_compat; assumption. }
    destruct (Qcle_lt_or_eq _ _ Hle) as [H|H]; [exact H|].
    exfalso. apply Hz. symmetry. exact H. }
  split; apply Qcmult_lt_0_le_reg_r with (x + y)%Qc; try exact Hpos;
    rewrite div_mul_cancel by exact Hz; apply Qcle_minus_iff.
  - replace (x - y + - (- (1) * (x + y)))%Qc with (x + x)%Qc by ring.
    apply double_nonneg. exact Ex.
  - replace (1 * (x + y) + - (x - y))%Qc with (y + y)%Qc by ring.
    apply double_nonneg. exact Ey.
Qed.

(** X9: every value of the Sentinel-2 vegetation-index table lies between -1
    and 1: the normalized difference masks negative reflectances and zero
    sums, and a mean stays within the bounds of its inputs. *)
Theorem sentinel_ndvi_range (w : World) (r : Feature.t) (v : Qc) :
  In r (Sentinel.ndviTable w) -> Feature.mean r = Some v ->
  (- (1) <= v /\ v <= 1)%Qc.
Proof.
  intros Hr Hv. rewrite s2_table in Hr. apply in_per_scene_table in Hr.
  destruct Hr as (i & b & Hi & _ & ->).
  apply in_s2 in Hi. destruct Hi as (img & _ & _ & _ & -> & _).
  cbn [scene_row Feature.mean] in Hv.
  unfold ee.reduce_region, s2_image, Image.copyProperties in Hv.
  cbn [Image.bands] in Hv.
  unfold Image.rename, Image.normalizedDifference in Hv.
  destruct (Image.band "B8" img) as [ra|]; [|discriminate Hv].
  destruct (Image.band "B4" img) as [rb|]; [|discriminate Hv].
  cbn [Image.bands Image.computed Image.with_bands] in Hv.
  assert (Hin : forall x,
             In x (ee.valid (Image.map2 Image.nd_pixel
                               (ra 10 (Block.geometry b)) (rb 10 (Block.geometry b)))) ->
             (- (1) <= x /\ x <= 1)%Qc).
  { intros x Hx. apply in_valid in Hx. apply in_map2 in Hx.
    destruct Hx as (pa & pb & _ & _ & E). symmetry in E.
    apply (nd_pixel_range pa pb x E). }
  split.
  - apply (mean_lower _ _ _ (fun x Hx => proj1 (Hin x Hx)) Hv).
  - apply (mean_upper _ _ _ (fun x Hx => proj2 (Hin x Hx)) Hv).
Qed.

Lemma sentinel_ndvi_range_witness :
  (- (1) <= ratio 1 2 /\ ratio 1 2 <= 1)%Qc.
Proof.
  refine (sentinel_ndvi_range world_ndvi
            (scene_row 10
               (s2_image (s2_scene (Date.days_from_civil 2019 1 5) (num 10) 3000 1000))
               block1) (ratio 1 2) _ _).
  - left. reflexivity.
  - cbn [scene_row Feature.mean]. 
    assert (E : option_map this
                  (ee.reduce_region ee.Reducer_mean 10
                     (s2_image (s2_scene (Date.days_from_civil 2019 1 5) (num 10) 3000 1000))
                     (Block.geometry block1))
                = Some (1 # 2)%Q) by (vm_compute; reflexivity).
    destruct (ee.reduce_region _ _ _ _) as [v|]; [|discriminate].
    cbn in E. injection E as E. f_equal. apply Qc_is_canon. rewrite E. reflexivity.
Defined.

Lemma padd_nonnegative (l l' : list Pixel) :
  nonnegative l -> nonnegative l' -> nonnegative (Image.map2 ee.padd l l').
Proof.
  intros Hl Hl' x Hx. apply in_map2 in Hx.
  destruct Hx as ([a|] & [b|] & Ha & Hb & E); cbn in E; try discriminate.
  - injection E as ->. replace 0%Qc with (0 + 0)%Qc by ring.
    apply Qcplus_le_compat; [apply Hl|apply Hl']; assumption.
  - injection E as ->. apply Hl. exact Ha.
  - injection E as ->. apply Hl'. exact Hb.
Qed.

Lemma sum_fold_nonnegative (n : string) (s : Z) (g : Geometry) (rest : ImageCollection) :
  (forall img b, In img rest -> In b (Image.bands img) -> nonnegative (snd b s g)) ->
  forall acc, nonnegative acc ->
    nonnegative
      (fold_left
         (fun acc img' =>
            match Image.band n img' with
            | Some r' => Image.map2 ee.padd acc (r' s g)
            | None => acc
            end) rest acc).
Proof.
  induction rest as [|img rest IH]; intros H acc Hacc; cbn [fold_left].
  - exact Hacc.
  - apply IH.
    + intros img' b Hi Hb. apply (H img' b); [right; exact Hi|exact Hb].
    + destruct (Image.band n img) as [r'|] eqn:E; [|exact Hacc].
      apply band_in_bands in E. destruct E as (b & Hb & <-).
      apply padd_nonnegative; [exact Hacc|].
      apply (H img b); [left; reflexivity|exact Hb].
Qed.

Lemma sum_nonnegative (s : Z) (g : Geometry) (col : ImageCollection) (v : Qc) :
  (forall img b, In img col -> In b (Image.bands img) -> nonnegative (snd b s g)) ->
  ee.reduce_region ee.Reducer_mean s (ee.sum col) g = Some v -> (0 <= v)%Qc.
Proof.
  intros H. unfold ee.reduce_region. destruct col as [|img rest]; [discriminate|].
  cbn [ee.sum Image.bands Image.computed].
  destruct (Image.bands img) as [|b [|b' bs]] eqn:E; cbn [map]; try discriminate.
  intros Hv. apply (mean_lower 0 v _) in Hv; [exact Hv|].
  intros x Hx. apply in_valid in Hx. revert x Hx.
  apply sum_fold_nonnegative.
  - intros img' b' Hi Hb. apply (H img' b'); [right; exact Hi|exact Hb].
  - apply (H img b); [left; reflexivity|]. rewrite E. left. reflexivity.
Qed.

(** X10: where no daily rainfall pixel of the catalogue is negative, no value of
    the rainfall table is: the per-pixel sum and the block mean keep the
    sign. *)
Theorem rainfall_nonnegative (w : World) :
  (forall img b g,
     In img (imageCollection w "UCSB-CHG/CHIRPS/DAILY") ->
     In b (Image.bands img) -> nonnegative (snd b 5000 g)) ->
  forall r v, In r (rainTable w) -> Feature.mean r = Some v -> (0 <= v)%Qc.
Proof.
  intros H r v Hr Hv. apply in_rainTable in Hr.
  destruct Hr as (i & b & Hi & _ & ->).
  apply in_monthlyRain in Hi. destruct Hi as (y & m & Hy & Hm & ->).
  cbn [rain_row Feature.mean] in Hv.
  rewrite monthly_image_mean in Hv by assumption.
  apply (sum_nonnegative 5000 _ _ v) in Hv; [exact Hv|].
  intros img b' Hi Hb. apply filter_In in Hi. destruct Hi as [Hi _].
  apply in_chirps in Hi. destruct Hi as [Hi _].
  apply (H img b' _ Hi Hb).
Qed.

Lemma rainfall_nonnegative_witness : (0 <= num 4)%Qc.
Proof.
  refine (rainfall_nonnegative world_rain _
            (rain_row (monthly_image world_rain 2024 12) block1) (num 4) _ _).
  - intros img b g Hi Hb x Hx.
    cbn in Hi.
    destruct Hi as [<-|[<-|[<-|[<-|[]]]]]; cbn in Hb;
      destruct Hb as [<-|[]]; cbn in Hx;
      destruct Hx as [Hx|[Hx|[]]]; injection Hx as <-; discriminate.
  - apply in_rainTable. exists (monthly_image world_rain 2024 12), block1.
    split; [|split; [left; reflexivity|reflexivity]].
    apply in_monthlyRain. exists 2024, 12. repeat split; lia.
  - exact (proj2 (proj2 december_2024_drops_last_day)).
Defined.

(** ** Rows per block and month *)

Lemma filter_none {A} (p : A -> bool) (l : list A) :
  (forall a, In a l -> p a = false) -> filter p l = [].
Proof.
  induction l as [|a l IH]; intros H; cbn [filter]; [reflexivity|].
  rewrite (H a (or_introl eq_refl)). apply IH.
  intros a' Ha. apply H. right. exact Ha.
Qed.

Lemma one_block_per_id (bs : Blocks) (b : Block.t) :
  NoDup (map Block.block_id bs) -> In b bs ->
  List.length (filter (fun b' => Block.block_id b' =? Block.block_id b) bs) = 1%nat.
Proof.
  induction bs as [|a bs IH]; intros Hnd Hin; [contradiction|].
  cbn [map] in Hnd. inversion Hnd as [|? ? Hnotin Hrest]; subst.
  cbn [filter]. destruct Hin as [->|Hin].
  - rewrite Z.eqb_refl. cbn [List.length]. f_equal.
    rewrite filter_none; [reflexivity|].
    intros b' Hb'. apply Z.eqb_neq. intros E. apply Hnotin.
    rewrite <- E. apply in_map. exact Hb'.
  - assert (Hne : Block.block_id a <> Block.block_id b).
    { intros E. apply Hnotin. rewrite E. apply in_map. exact Hin. }
    apply Z.eqb_neq in Hne. rewrite Hne. apply IH; assumption.
Qed.

Lemma length_filter_map {A B} (p : B -> bool) (f : A -> B) (l : list A) :
  List.length (filter p (map f l)) = List.length (filter (fun a => p (f a)) l).
Proof.
  induction l as [|a l IH]; cbn [map filter]; [reflexivity|].
  destruct (p (f a)); cbn [List.length]; rewrite IH; reflexivity.
Qed.

Lemma scene_row_has_key (scale id y m : Z) (img : Image.t) (b : Block.t) :
  has_key id y m (scene_row scale img b)
  = (Block.block_id b =? id) && in_month y m img.
Proof.
  unfold has_key, scene_row, scene_month, in_month. cbn.
  destruct (Image.system_time_start img) as [x|]; cbn.
  - rewrite andb_assoc. reflexivity.
  - rewrite ?andb_false_r. reflexivity.
Qed.

Lemma count_scene_rows (w : World) (scale : Z) (col : ImageCollection)
      (b : Block.t) (y m : Z) :
  NoDup (map Block.block_id (blocks w)) -> In b (blocks w) ->
  List.length (filter (has_key (Block.block_id b) y m)
                 (ee.flatten (map (reduce_and_tag w scale) col)))
  = List.length (filter (in_month y m) col).
Proof.
  intros Hnd Hb. rewrite per_scene_table.
  induction col as [|img col IH]; cbn [flat_map filter]; [reflexivity|].
  rewrite filter_app, length_app, IH, length_filter_map.
  rewrite (filter_ext _ (fun b' => (Block.block_id b' =? Block.block_id b)
                                   && in_month y m img))
    by (intros b'; apply scene_row_has_key).
  destruct (in_month y m img); cbn [List.length].
  - rewrite (filter_ext _ (fun b' => Block.block_id b' =? Block.block_id b))
      by (intros b'; apply andb_true_r).
    rewrite one_block_per_id by assumption. reflexivity.
  - rewrite filter_none by (intros b' _; apply andb_false_r). reflexivity.
Qed.

(** X11: block identifiers being unique, a per-scene table holds, for a block
    and a month, exactly as many rows as its collection has scenes in that
    month: the monthly aggregate is left to whoever reads the table. *)
Theorem rows_per_block_and_month (w : World) (b : Block.t) (y m : Z) :
  NoDup (map Block.block_id (blocks w)) -> In b (blocks w) ->
  List.length (filter (has_key (Block.block_id b) y m) (Sentinel.ndviTable w))
  = List.length (filter (in_month y m) (Sentinel.s2 w))
  /\ List.length (filter (has_key (Block.block_id b) y m) (etTable w))
     = List.length (filter (in_month y m) (etCol w))
  /\ List.length (filter (has_key (Block.block_id b) y m) (Modis.ndviTable w))
     = List.length (filter (in_month y m) (Modis.ndvi w)).
Proof.
  intros Hnd Hb. rewrite s2_table, et_table, modis_table.
  repeat split; apply count_scene_rows; assumption.
Qed.

Lemma rows_per_block_and_month_witness :
  List.length (filter (has_key 101 2019 1) (etTable world_two_scenes)) = 2%nat.
Proof.
  refine (eq_trans
            (proj1 (proj2 (rows_per_block_and_month world_two_scenes block1 2019 1 _ _)))
            _).
  - repeat constructor. intros [].
  - left. reflexivity.
  - reflexivity.
Defined.
